(** * API Manager: a shallow embedding of the request handlers of [app.js]

    The service issues, lists, revokes, soft-deletes and validates API keys
    and records every validation attempt.  The handlers are embedded as pure
    functions over an explicit store (the two SQL tables as lists of rows,
    in rowid order), the JSON request fields as values of [jsval], and the
    side effects (store statements, [console.error]) as a trace of events.

    What the platform provides and the source only calls is a parameter:
    the key-derivation function, the [Date] constructor,
    [Date.prototype.toISOString], [parseInt], and the two conversions the
    store makes between numbers and texts (class [Platform]). *)

From Stdlib Require Import ZArith List String Ascii Bool Lia Sorted Permutation.
Import ListNotations.

Open Scope string_scope.
Open Scope Z_scope.

(** ** JavaScript values and the primitives the handlers use *)

Module Js.

#[local] Set Warnings "-register-all".

(** JSON request fields, store cells and response bodies.  [JUndefined] is a
    field that is absent from the request body.  Numbers are the integral
    ones. *)
Inductive jsval : Type :=
| JUndefined
| JNull
| JBool (b : bool)
| JNum (n : Z)
| JStr (s : string)
| JArr (items : list jsval)
| JObj (fields : list (string * jsval)).

(** ToBoolean: [!v] is [negb (truthy v)]. *)
Definition truthy (v : jsval) : bool :=
  match v with
  | JUndefined | JNull => false
  | JBool b => b
  | JNum n => negb (n =? 0)
  | JStr s => negb (s =? "")%string
  | JArr _ | JObj _ => true
  end.

(** [a || b] on values. *)
Definition or_else (a b : jsval) : jsval := if truthy a then a else b.

(** [String.prototype.includes]: [needle] occurs somewhere in [hay]. *)
Fixpoint includes (hay needle : string) : bool :=
  String.prefix needle hay ||
  match hay with
  | EmptyString => false
  | String _ rest => includes rest needle
  end.

(** Outcome of an expression that may throw. *)
Inductive completion (A : Type) : Type :=
| Normal (a : A)
| Throw.
Arguments Normal {A} a.
Arguments Throw {A}.

Definition bind {A B} (c : completion A) (k : A -> completion B) : completion B :=
  match c with
  | Normal a => k a
  | Throw => Throw
  end.

Definition is_str (v : jsval) (s : string) : bool :=
  match v with
  | JStr t => (t =? s)%string
  | _ => false
  end.

(** [v.includes(s)] for a truthy JSON value [v]: the string method on a
    string, the array method (SameValueZero against the string [s]) on an
    array, and a TypeError on everything else, whose [includes] property is
    not a function. *)
Definition method_includes (v : jsval) (s : string) : completion bool :=
  match v with
  | JStr t => Normal (includes t s)
  | JArr items => Normal (existsb (fun x => is_str x s) items)
  | _ => Throw
  end.

(** [arr.includes(v)] for an array [arr] of strings. *)
Definition array_includes (arr : list string) (v : jsval) : bool :=
  existsb (fun x => is_str v x) arr.

(** Property lookup on an object literal. *)
Fixpoint assoc (k : string) (fields : list (string * jsval)) : jsval :=
  match fields with
  | [] => JUndefined
  | (k', v) :: rest => if (k =? k')%string then v else assoc k rest
  end.

Definition get (v : jsval) (k : string) : jsval :=
  match v with
  | JObj fields => assoc k fields
  | _ => JUndefined
  end.

End Js.
Import Js.

(** ** Scope well-formedness *)

(** The element test of [scopes.every(...)] in [POST /api-keys]. *)
Definition scope_ok_create (s : jsval) : bool :=
  match s with
  | JStr t => includes t ":"
  | _ => false
  end.

(** The scope test of [POST /validate]: [scope.includes(':')]. *)
Definition scope_ok_validate (scope : jsval) : completion bool :=
  method_includes scope ":".

(** The contract of the specification's [isWellFormed], in its words: the
    string has a first [':'], and the part before it and the part after it
    are both non-empty. *)
Definition isWellFormed_spec (s : string) : Prop :=
  exists before after : string,
    s = before ++ ":" ++ after /\
    includes before ":" = false /\
    before <> "" /\ after <> "".

(** ** The store *)

(** Rows of table [api_keys], with the column names of the statements in
    [app.js].  Columns [expiration] and [owner] are TEXT columns read back
    as JSON values: the INSERT of [POST /api-keys] leaves NULL or a text in
    them ([bind_text] below), never a number.  Column [scopes] holds
    [JSON.stringify] of an array of strings and is read back through
    [JSON.parse]; the row keeps the array itself.  Timestamps are the ISO
    strings the handlers bind. *)
Module ApiKeys.
Record row : Type := mk {
  id : Z;
  key_hash : string;
  salt : string;
  status : string;
  expiration : jsval;
  created_at : string;
  updated_at : string;
  scopes : list string;
  owner : jsval;
  deleted_at : option string
}.
End ApiKeys.

(** Rows of table [usage_records].  Columns [id] and [timestamp] do not
    occur in the INSERT of [logUsage] and are assigned by the store (an
    AUTOINCREMENT key and [DEFAULT CURRENT_TIMESTAMP] in the schema of
    [db.js]).  Column [user_agent] is a TEXT column: NULL or the header.
    Column [metadata] holds [JSON.stringify] of an object and is read back
    through [JSON.parse]; the row keeps the object itself. *)
Module UsageRecords.
Record row : Type := mk {
  id : Z;
  api_key_id : option Z;
  timestamp : string;
  action : string;
  endpoint : string;
  ip : string;
  user_agent : jsval;
  metadata : jsval
}.
End UsageRecords.

Record db : Type := mkDb {
  api_keys : list ApiKeys.row;
  usage_records : list UsageRecords.row
}.

Definition empty_db : db := mkDb [] [].

(** [INTEGER PRIMARY KEY AUTOINCREMENT]: the id the store assigns to a new
    row, one more than the largest id of the table (no handler removes a
    row). *)
Definition fresh_id (ids : list Z) : Z := 1 + fold_right Z.max 0 ids.

(** The statements the handlers prepare and run; [id] is the path segment
    [req.params.id] that is bound. *)
Inductive statement : Type :=
| InsertUsage (apiKeyId : option Z) (action endpoint ip : string)
    (userAgent metadata : jsval)
| InsertKey
| SelectListing
| UpdateStatus (id : string)
| UpdateDeleted (id : string)
| SelectCandidates
| SelectUsage (id : string).

(** What a handler does besides answering: the statements it runs on the
    store and the lines it sends to the operational log. *)
Inductive event : Type :=
| Run (s : statement)
| ConsoleError (label : string).

Record http_response : Type := mkResponse {
  code : Z;
  body : jsval
}.

(** A handled request: the response, the store afterwards and the trace. *)
Record handled : Type := mkHandled {
  response : http_response;
  store : db;
  trace : list event
}.

Definition json (c : Z) (b : jsval) (d : db) (t : list event) : handled :=
  mkHandled (mkResponse c b) d t.

(** The [catch] block every handler ends with. *)
Definition internal_error (label : string) (d : db) (t : list event) : handled :=
  json 500 (JObj [("error", JStr "Internal server error")]) d
    (t ++ [ConsoleError label]).

(** ** The platform *)

Class Platform : Type := {
  (** [crypto.scryptSync(secret, salt, 64, {N: 16384, r: 8, p: 1}).toString('hex')] *)
  scrypt : string -> string -> string;
  (** [new Date(v)]: the time value in milliseconds, [None] for an Invalid
      Date (time value NaN). *)
  new_Date : jsval -> option Z;
  (** [Date.prototype.toISOString] at a time value. *)
  toISOString : Z -> string;
  (** [parseInt(s)]: [None] for NaN. *)
  parseInt : string -> option Z;
  (** A text bound where the store compares an INTEGER column with it: the
      integer the comparison is made with once the affinity of the column
      has read the text as a number, [None] when the text equals no
      integer. *)
  sqlite_integer : string -> option Z;
  (** The text a TEXT column keeps of a bound number: better-sqlite3 binds a
      JavaScript number as a REAL, and the affinity of the column stores its
      rendering as text ([42.0] for 42). *)
  sqlite_text : Z -> string;
  sqlite_text_nonempty : forall n : Z, sqlite_text n <> EmptyString
}.

(** [a < b] on two Dates: the comparison of their time values, false as soon
    as one of them is NaN. *)
Definition date_lt (a b : option Z) : bool :=
  match a, b with
  | Some x, Some y => x <? y
  | _, _ => false
  end.

(** What surrounds one request: the clock at the handler's [new Date()],
    the clock at the second [new Date()] of a validation (the one of
    [validatedAt]), the caller's address and User-Agent header, the timestamp
    the store assigns to a usage row, and whether the store accepts the
    INSERT of [logUsage]. *)
Record env : Type := mkEnv {
  now : Z;
  answered_at : Z;
  req_ip : string;
  req_user_agent : jsval;
  store_timestamp : string;
  usage_insert_ok : bool
}.

(** ** SQL helpers *)

(** [UPDATE t SET ... WHERE ...]: the rows afterwards and [info.changes]. *)
Definition sql_update {A : Type} (where_ : A -> bool) (set : A -> A)
    (rows : list A) : list A * Z :=
  (map (fun r => if where_ r then set r else r) rows,
   Z.of_nat (List.length (filter where_ rows))).

(** [ORDER BY col DESC] on a text column: insertion in descending order of
    the key; rows with equal keys stay in scan order. *)
Fixpoint insert_desc {A : Type} (key : A -> string) (x : A) (l : list A) : list A :=
  match l with
  | [] => [x]
  | y :: rest =>
      if String.ltb (key x) (key y) then y :: insert_desc key x rest
      else x :: l
  end.

Definition order_by_desc {A : Type} (key : A -> string) (l : list A) : list A :=
  fold_right (insert_desc key) [] l.

(** [WHERE deleted_at IS NULL] *)
Definition live (k : ApiKeys.row) : bool :=
  match ApiKeys.deleted_at k with
  | None => true
  | Some _ => false
  end.

Definition of_text (t : option string) : jsval :=
  match t with
  | None => JNull
  | Some s => JStr s
  end.

(** A number in a JSON answer: [JSON.stringify] turns NaN into [null]. *)
Definition of_number (n : option Z) : jsval :=
  match n with
  | None => JNull
  | Some i => JNum i
  end.

(** A header bound to a statement: better-sqlite3 binds [undefined] as
    NULL.  ([req.get] returns a string or [undefined].) *)
Definition null_if_undefined (v : jsval) : jsval :=
  match v with
  | JUndefined => JNull
  | _ => v
  end.

(** The text of the three error messages that quote a word. *)
Definition quoted (s : string) : string :=
  String (ascii_of_nat 34) (s ++ String (ascii_of_nat 34) EmptyString).

Definition scopes_message : string :=
  "Scopes must be an array of strings in format " ++ quoted "resource:action"
  ++ " (e.g., " ++ quoted "orders:read" ++ ")".

Definition status_message : string :=
  "Only status " ++ quoted "revoked" ++ " is allowed for updates".

Definition scope_message : string :=
  "Scope must be in format " ++ quoted "resource:action".

(** ** The handlers *)

Section Handlers.
Context {P : Platform}.

(** [logUsage]: one INSERT into [usage_records]; an error of the store is
    caught and sent to [console.error].  An absent User-Agent reaches the
    row as NULL. *)
Definition logUsage (e : env) (d : db) (apiKeyId : option Z)
    (action endpoint ip : string) (userAgent metadata : jsval)
    : db * list event :=
  let stmt := Run (InsertUsage apiKeyId action endpoint ip userAgent metadata) in
  if usage_insert_ok e then
    let r := UsageRecords.mk
               (fresh_id (map UsageRecords.id (usage_records d)))
               apiKeyId (store_timestamp e) action endpoint ip
               (null_if_undefined userAgent) metadata in
    (mkDb (api_keys d) (usage_records d ++ [r]), [stmt])
  else
    (d, [stmt; ConsoleError "Error logging usage:"]).

(** *** POST /api-keys *)

(** [Array.isArray(scopes) && scopes.every(s => typeof s === 'string' && s.includes(':'))] *)
Definition scopes_ok (scopes : jsval) : bool :=
  match scopes with
  | JArr items => forallb scope_ok_create items
  | _ => false
  end.

(** The strings of an array that passed [scopes_ok]. *)
Definition strings_of (scopes : jsval) : list string :=
  match scopes with
  | JArr items =>
      flat_map (fun v => match v with JStr s => [s] | _ => [] end) items
  | _ => []
  end.

(** A JSON value bound to a TEXT column, and what the column keeps of it:
    better-sqlite3 binds a string, a number and null ([undefined] as null)
    and throws a TypeError on a boolean, an array or an object; a number is
    kept as its text. *)
Definition bind_text (v : jsval) : completion jsval :=
  match v with
  | JUndefined | JNull => Normal JNull
  | JStr s => Normal (JStr s)
  | JNum n => Normal (JStr (sqlite_text n))
  | JBool _ | JArr _ | JObj _ => Throw
  end.

(** [key] and [salt] are the two draws
    [crypto.randomBytes(32).toString('hex')] and
    [crypto.randomBytes(16).toString('hex')].  [stmt.run] throws when
    [expiration || null] or [owner] cannot be bound; the [catch] block then
    answers, and no row is inserted. *)
Definition post_api_keys (e : env) (key salt : string) (d : db)
    (owner scopes_field expiration : jsval) : handled :=
  let scopes := match scopes_field with JUndefined => JArr [] | v => v end in
  if negb (truthy owner) then
    json 400 (JObj [("error", JStr "Owner is required")]) d []
  else if negb (scopes_ok scopes) then
    json 400 (JObj [("error", JStr scopes_message)]) d []
  else
    let keyHash := scrypt key salt in
    let now_ := toISOString (now e) in
    match bind_text (or_else expiration JNull), bind_text owner with
    | Normal expiration_cell, Normal owner_cell =>
        let lastInsertRowid := fresh_id (map ApiKeys.id (api_keys d)) in
        let inserted :=
          ApiKeys.mk lastInsertRowid keyHash salt "active" expiration_cell
            now_ now_ (strings_of scopes) owner_cell None in
        json 201
          (JObj [("id", JNum lastInsertRowid);
                 ("key", JStr key);
                 ("owner", owner);
                 ("scopes", scopes);
                 ("expiration", or_else expiration JNull);
                 ("status", JStr "active");
                 ("created_at", JStr now_)])
          (mkDb (api_keys d ++ [inserted]) (usage_records d))
          [Run InsertKey]
    | _, _ => internal_error "Error creating API key:" d [Run InsertKey]
    end.

(** *** GET /api-keys *)

(** One row of the SELECT, with [scopes] parsed. *)
Definition listing_row (k : ApiKeys.row) : jsval :=
  JObj [("id", JNum (ApiKeys.id k));
        ("owner", ApiKeys.owner k);
        ("scopes", JArr (map JStr (ApiKeys.scopes k)));
        ("status", JStr (ApiKeys.status k));
        ("expiration", ApiKeys.expiration k);
        ("created_at", JStr (ApiKeys.created_at k));
        ("updated_at", JStr (ApiKeys.updated_at k))].

Definition select_listing (d : db) : list ApiKeys.row :=
  order_by_desc ApiKeys.created_at (filter live (api_keys d)).

Definition get_api_keys (d : db) : handled :=
  json 200 (JArr (map listing_row (select_listing d))) d [Run SelectListing].

(** *** PATCH /api-keys/:id *)

(** [id] is the path segment [req.params.id], a string: the store compares
    column [id] with the integer the bound text denotes, the answer carries
    [parseInt(id)]. *)
Definition is_id (id : string) (i : Z) : bool :=
  match sqlite_integer id with
  | Some j => i =? j
  | None => false
  end.

Definition set_status (st now_ : string) (k : ApiKeys.row) : ApiKeys.row :=
  ApiKeys.mk (ApiKeys.id k) (ApiKeys.key_hash k) (ApiKeys.salt k) st
    (ApiKeys.expiration k) (ApiKeys.created_at k) now_ (ApiKeys.scopes k)
    (ApiKeys.owner k) (ApiKeys.deleted_at k).

Definition patch_api_keys_id (e : env) (d : db) (id : string) (status : jsval)
    : handled :=
  if negb (is_str status "revoked") then
    json 400 (JObj [("error", JStr status_message)]) d []
  else
    let now_ := toISOString (now e) in
    let '(rows, changes) :=
      sql_update (fun k => is_id id (ApiKeys.id k)) (set_status "revoked" now_)
        (api_keys d) in
    let d' := mkDb rows (usage_records d) in
    if changes =? 0 then
      json 404 (JObj [("error", JStr "API key not found")]) d'
        [Run (UpdateStatus id)]
    else
      json 200
        (JObj [("id", of_number (parseInt id)); ("status", JStr "revoked");
               ("updated_at", JStr now_)])
        d' [Run (UpdateStatus id)].

(** *** DELETE /api-keys/:id *)

(** [WHERE id = ? AND deleted_at IS NULL] *)
Definition deletable (id : string) (k : ApiKeys.row) : bool :=
  is_id id (ApiKeys.id k) && live k.

Definition set_deleted (now_ : string) (k : ApiKeys.row) : ApiKeys.row :=
  ApiKeys.mk (ApiKeys.id k) (ApiKeys.key_hash k) (ApiKeys.salt k)
    (ApiKeys.status k) (ApiKeys.expiration k) (ApiKeys.created_at k) now_
    (ApiKeys.scopes k) (ApiKeys.owner k) (Some now_).

Definition delete_api_keys_id (e : env) (d : db) (id : string) : handled :=
  let now_ := toISOString (now e) in
  let '(rows, changes) :=
    sql_update (deletable id) (set_deleted now_) (api_keys d) in
  let d' := mkDb rows (usage_records d) in
  if changes =? 0 then
    json 404 (JObj [("error", JStr "API key not found or already deleted")]) d'
      [Run (UpdateDeleted id)]
  else
    json 200 (JObj [("id", of_number (parseInt id)); ("deleted_at", JStr now_)]) d'
      [Run (UpdateDeleted id)].

(** *** POST /validate *)

(** [crypto.scryptSync] takes a string (or a buffer, which JSON has not) as
    its password and throws a TypeError on any other value. *)
Definition scryptSync (password : jsval) (salt : string) : completion string :=
  match password with
  | JStr secret => Normal (scrypt secret salt)
  | _ => Throw
  end.

(** The [for (const key of keys)] loop: the first row whose stored hash is
    the hash recomputed from the presented key and the row's salt. *)
Fixpoint find_key (apiKey : jsval) (keys : list ApiKeys.row)
    : completion (option ApiKeys.row) :=
  match keys with
  | [] => Normal None
  | key :: rest =>
      bind (scryptSync apiKey (ApiKeys.salt key)) (fun computedHash =>
        if (computedHash =? ApiKeys.key_hash key)%string then Normal (Some key)
        else find_key apiKey rest)
  end.

(** [SELECT ... FROM api_keys WHERE deleted_at IS NULL], in rowid order. *)
Definition select_candidates (d : db) : list ApiKeys.row :=
  filter live (api_keys d).

(** [{ service, scope, result }] *)
Definition usage_metadata (service scope : jsval) (result : string) : jsval :=
  JObj [("service", service); ("scope", scope); ("result", JStr result)].

Definition denied (reason : string) : jsval :=
  JObj [("allowed", JBool false); ("reason", JStr reason)].

Definition post_validate (e : env) (d : db) (apiKey scope service : jsval)
    : handled :=
  if negb (truthy apiKey) || negb (truthy scope) || negb (truthy service) then
    json 400 (JObj [("error", JStr "apiKey, scope, and service are required")]) d []
  else
    match scope_ok_validate scope with
    | Throw => internal_error "Error validating API key:" d []
    | Normal false => json 400 (JObj [("error", JStr scope_message)]) d []
    | Normal true =>
        let keys := select_candidates d in
        let log apiKeyId result :=
          logUsage e d apiKeyId "validate" "/validate" (req_ip e)
            (req_user_agent e) (usage_metadata service scope result) in
        match find_key apiKey keys with
        | Throw => internal_error "Error validating API key:" d [Run SelectCandidates]
        | Normal None =>
            let '(d', t) := log None "invalid_key" in
            json 200 (denied "Invalid API key") d' (Run SelectCandidates :: t)
        | Normal (Some keyData) =>
            let scopes := ApiKeys.scopes keyData in
            if negb (ApiKeys.status keyData =? "active")%string then
              let '(d', t) := log (Some (ApiKeys.id keyData)) "revoked" in
              json 200 (denied "API key is revoked") d' (Run SelectCandidates :: t)
            else if truthy (ApiKeys.expiration keyData)
                    && date_lt (new_Date (ApiKeys.expiration keyData)) (Some (now e)) then
              let '(d', t) := log (Some (ApiKeys.id keyData)) "expired" in
              json 200 (denied "API key has expired") d' (Run SelectCandidates :: t)
            else if negb (array_includes scopes scope) then
              let '(d', t) := log (Some (ApiKeys.id keyData)) "insufficient_scope" in
              json 200 (denied "Insufficient scope") d' (Run SelectCandidates :: t)
            else
              let '(d', t) := log (Some (ApiKeys.id keyData)) "allowed" in
              json 200
                (JObj [("allowed", JBool true);
                       ("metadata",
                        JObj [("keyId", JNum (ApiKeys.id keyData));
                              ("owner", ApiKeys.owner keyData);
                              ("scopes", JArr (map JStr scopes));
                              ("service", service);
                              ("validatedAt", JStr (toISOString (answered_at e)))])])
                d' (Run SelectCandidates :: t)
        end
    end.

(** *** GET /api-keys/:id/usage *)

(** [usage_records ur LEFT JOIN api_keys ak ON ur.api_key_id = ak.id
    WHERE ur.api_key_id = ?]: each usage row of the key with each key row of
    that id, or alone when there is none. *)
Definition left_join (keys : list ApiKeys.row) (ur : UsageRecords.row)
    : list (UsageRecords.row * option ApiKeys.row) :=
  match filter (fun ak => match UsageRecords.api_key_id ur with
                          | Some i => i =? ApiKeys.id ak
                          | None => false
                          end) keys with
  | [] => [(ur, None)]
  | matches => map (fun ak => (ur, Some ak)) matches
  end.

Definition usage_of (id : string) (ur : UsageRecords.row) : bool :=
  match UsageRecords.api_key_id ur with
  | Some i => is_id id i
  | None => false
  end.

Definition select_usage (d : db) (id : string)
    : list (UsageRecords.row * option ApiKeys.row) :=
  order_by_desc (fun j => UsageRecords.timestamp (fst j))
    (flat_map (left_join (api_keys d)) (filter (usage_of id) (usage_records d))).

Definition joined (f : ApiKeys.row -> jsval) (ak : option ApiKeys.row) : jsval :=
  match ak with
  | Some k => f k
  | None => JNull
  end.

(** One row of the SELECT, with [metadata] parsed. *)
Definition usage_row (j : UsageRecords.row * option ApiKeys.row) : jsval :=
  let (ur, ak) := j in
  JObj [("id", JNum (UsageRecords.id ur));
        ("timestamp", JStr (UsageRecords.timestamp ur));
        ("action", JStr (UsageRecords.action ur));
        ("endpoint", JStr (UsageRecords.endpoint ur));
        ("ip", JStr (UsageRecords.ip ur));
        ("user_agent", UsageRecords.user_agent ur);
        ("metadata", UsageRecords.metadata ur);
        ("owner", joined ApiKeys.owner ak);
        ("status", joined (fun k => JStr (ApiKeys.status k)) ak);
        ("deleted_at", joined (fun k => of_text (ApiKeys.deleted_at k)) ak)].

Definition get_api_keys_id_usage (d : db) (id : string) : handled :=
  let records := map usage_row (select_usage d id) in
  json 200
    (JObj [("keyId", of_number (parseInt id));
           ("totalRequests", JNum (Z.of_nat (List.length records)));
           ("keyInfo",
            match records with
            | first :: _ =>
                JObj [("owner", get first "owner");
                      ("status", get first "status");
                      ("deleted_at", get first "deleted_at")]
            | [] => JNull
            end);
           ("records", JArr records)])
    d [Run (SelectUsage id)].

End Handlers.

(** ** The service as a transition system *)

(** The requests of the six routes.  The body of a request is a JSON
    object: the fields a handler destructures from it are the arguments
    here, [JUndefined] for a field the object has not.  [id] is the path
    segment, [key] and [salt] are the random draws of a creation. *)
Inductive request : Type :=
| PostApiKeys (e : env) (key salt : string) (owner scopes expiration : jsval)
| GetApiKeys
| PatchApiKeysId (e : env) (id : string) (status : jsval)
| DeleteApiKeysId (e : env) (id : string)
| PostValidate (e : env) (apiKey scope service : jsval)
| GetApiKeysIdUsage (id : string).

Definition handle {P : Platform} (r : request) (d : db) : handled :=
  match r with
  | PostApiKeys e key salt owner scopes expiration =>
      post_api_keys e key salt d owner scopes expiration
  | GetApiKeys => get_api_keys d
  | PatchApiKeysId e id status => patch_api_keys_id e d id status
  | DeleteApiKeysId e id => delete_api_keys_id e d id
  | PostValidate e apiKey scope service => post_validate e d apiKey scope service
  | GetApiKeysIdUsage id => get_api_keys_id_usage d id
  end.

(** The stores the service reaches from the empty one. *)
Inductive reachable {P : Platform} : db -> Prop :=
| reachable_empty : reachable empty_db
| reachable_step (r : request) (d : db) :
    reachable d -> reachable (store (handle r d)).

(** Column [id] is the primary key of [api_keys]. *)
Definition unique_ids (d : db) : Prop :=
  NoDup (map ApiKeys.id (api_keys d)).

(** A stored expiration is NULL or a truthy value: [expiration || null] is
    what [POST /api-keys] binds, and the text of a number is not empty. *)
Definition expiration_bound (v : jsval) : bool :=
  match v with
  | JNull => true
  | _ => truthy v
  end.

Definition expirations_bound (d : db) : bool :=
  forallb (fun k => expiration_bound (ApiKeys.expiration k)) (api_keys d).


(** ** The validation algorithm of the specification *)

Inductive reason : Type :=
| invalid_key
| revoked
| expired
| insufficient_scope.

Inductive decision : Type :=
| Denied (r : reason)
| Allowed (keyId : Z) (owner : jsval) (scopes : list string)
    (service : jsval) (validatedAt : string).

Section Reference.
Context {P : Platform}.

(** Step 2: the stored verifier equals the recomputation from the presented
    secret and the record's salt. *)
Definition verifies (presentedSecret : string) (r : ApiKeys.row) : bool :=
  (ApiKeys.key_hash r =? scrypt presentedSecret (ApiKeys.salt r))%string.




End Reference.

(** The name of an outcome, as [logUsage] records it in [metadata.result]. *)
Definition result_name (dc : decision) : string :=
  match dc with
  | Denied invalid_key => "invalid_key"
  | Denied revoked => "revoked"
  | Denied expired => "expired"
  | Denied insufficient_scope => "insufficient_scope"
  | Allowed _ _ _ _ _ => "allowed"
  end.

(** The sentence that answers a denial. *)
Definition reason_text (r : reason) : string :=
  match r with
  | invalid_key => "Invalid API key"
  | revoked => "API key is revoked"
  | expired => "API key has expired"
  | insufficient_scope => "Insufficient scope"
  end.

(** A decision as the JSON answer of status 200. *)
Definition render (dc : decision) : http_response :=
  match dc with
  | Denied r =>
      mkResponse 200 (JObj [("allowed", JBool false); ("reason", JStr (reason_text r))])
  | Allowed keyId owner scopes service validatedAt =>
      mkResponse 200
        (JObj [("allowed", JBool true);
               ("metadata",
                JObj [("keyId", JNum keyId);
                      ("owner", owner);
                      ("scopes", JArr (map JStr scopes));
                      ("service", service);
                      ("validatedAt", JStr validatedAt)])])
  end.

(** ** The validation handler, read as a decision procedure *)

(** The two guards of [POST /validate] before it touches the store. *)
Definition passes_input_validation (apiKey scope service : jsval) : bool :=
  truthy apiKey && truthy scope && truthy service &&
  match scope_ok_validate scope with
  | Normal ok => ok
  | Throw => false
  end.

(** The record the scan of [POST /validate] stops at. *)
Definition matched {P : Platform} (presentedSecret : string) (d : db)
    : option ApiKeys.row :=
  List.find (verifies presentedSecret) (select_candidates d).

(** The branch [POST /validate] takes once the scan is over. *)
Definition verdict {P : Platform} (current answered : Z) (scope service : jsval)
    (m : option ApiKeys.row) : decision :=
  match m with
  | None => Denied invalid_key
  | Some keyData =>
      if negb (ApiKeys.status keyData =? "active")%string then Denied revoked
      else if truthy (ApiKeys.expiration keyData)
              && date_lt (new_Date (ApiKeys.expiration keyData)) (Some current)
      then Denied expired
      else if negb (array_includes (ApiKeys.scopes keyData) scope)
      then Denied insufficient_scope
      else Allowed (ApiKeys.id keyData) (ApiKeys.owner keyData)
             (ApiKeys.scopes keyData) service (toISOString answered)
  end.

(** What [logUsage] is called with once the scan is over. *)
Definition usage_call {P : Platform} (e : env) (d : db) (scope service : jsval)
    (m : option ApiKeys.row) : db * list event :=
  logUsage e d (option_map ApiKeys.id m) "validate" "/validate" (req_ip e)
    (req_user_agent e)
    (usage_metadata service scope
       (result_name (verdict (now e) (answered_at e) scope service m))).

(** The INSERTs into [usage_records] among the events of a trace. *)
Definition usage_writes (t : list event) : list statement :=
  flat_map (fun ev => match ev with
                      | Run (InsertUsage a b c d0 e0 f) => [InsertUsage a b c d0 e0 f]
                      | _ => []
                      end) t.

(** The statements of a trace: every access to the store. *)
Definition store_accesses (t : list event) : list statement :=
  flat_map (fun ev => match ev with Run s => [s] | ConsoleError _ => [] end) t.

(** The three answers of [POST /validate] that are no decision. *)
Definition validate_errors : list http_response :=
  [mkResponse 400 (JObj [("error", JStr "apiKey, scope, and service are required")]);
   mkResponse 400 (JObj [("error", JStr scope_message)]);
   mkResponse 500 (JObj [("error", JStr "Internal server error")])].

(** ** What of a key record is not secret *)




(** The same environment with the INSERT of [logUsage] failing or not. *)
Definition with_usage_insert (ok : bool) (e : env) : env :=
  mkEnv (now e) (answered_at e) (req_ip e) (req_user_agent e)
    (store_timestamp e) ok.


(** ** A concrete platform and store, for running the handlers *)

(** Decimal numerals of one digit, and one numeral that [parseInt] and the
    store read differently. *)
Definition demo_parseInt (s : string) : option Z :=
  match s with
  | "1" => Some 1
  | "2" => Some 2
  | "3" => Some 3
  | "7" => Some 7
  | "10e-1" => Some 10
  | _ => None
  end.

Definition demo_sqlite_integer (s : string) : option Z :=
  match s with
  | "1" => Some 1
  | "2" => Some 2
  | "3" => Some 3
  | "7" => Some 7
  | "10e-1" => Some 1
  | _ => None
  end.

Definition demo_sqlite_text (n : Z) : string :=
  if n =? 42 then "42.0" else "1735689599000.0".

(** A stand-in derivation (salt, separator, secret), a [Date] that
    understands numbers and two strings, a two-valued [toISOString], and
    the three readings above. *)
Definition demo_platform : Platform := {|
  scrypt secret salt := salt ++ "$" ++ secret;
  new_Date v :=
    match v with
    | JNum n => Some n
    | JStr "2024-12-31T23:59:59Z" => Some 1735689599000
    | JStr "2099-01-01T00:00:00Z" => Some 4070908800000
    | _ => None
    end;
  toISOString n :=
    if n <? 1750000000000 then "2025-01-01T00:00:00.000Z"
    else "2025-06-15T15:06:40.000Z";
  parseInt := demo_parseInt;
  sqlite_integer := demo_sqlite_integer;
  sqlite_text := demo_sqlite_text;
  sqlite_text_nonempty :=
    fun n => ltac:(unfold demo_sqlite_text; destruct (n =? 42); discriminate)
|}.

Definition demo_env : env :=
  mkEnv 1750000000000 1750000000007 "127.0.0.1" (JStr "curl/8.0")
    "2025-06-15 15:06:40" true.

Definition early_env : env :=
  mkEnv 1735689600000 1735689600003 "127.0.0.1" (JStr "curl/8.0")
    "2025-01-01 00:00:00" true.

(** One key issued for [orders:read], never expiring. *)
Definition demo_issued : handled :=
  @post_api_keys demo_platform early_env "c0ffee" "5a17" empty_db
    (JStr "test-user") (JArr [JStr "orders:read"]) JUndefined.

Definition demo_db : db := store demo_issued.

(** The same key after [DELETE /api-keys/1]. *)
Definition demo_deleted : handled :=
  @delete_api_keys_id demo_platform demo_env demo_db "1".


(** [PATCH /api-keys/1] with status [revoked], after the key was deleted. *)
Definition demo_revoked_after_delete : handled :=
  @patch_api_keys_id demo_platform demo_env (store demo_deleted) "1" (JStr "revoked").


(** One validation of the demonstration key, then its deletion. *)
Definition demo_used : handled :=
  @post_validate demo_platform demo_env demo_db
    (JStr "c0ffee") (JStr "orders:read") (JStr "svc").

Definition demo_used_deleted : handled :=
  @delete_api_keys_id demo_platform demo_env (store demo_used) "1".

(** Requests other than a validation. *)
Definition is_validation (r : request) : bool :=
  match r with
  | PostValidate _ _ _ _ => true
  | _ => false
  end.


(** The key row and the usage row of [demo_used_deleted]. *)
Definition demo_deleted_row : ApiKeys.row :=
  ApiKeys.mk 1 "5a17$c0ffee" "5a17" "active" JNull "2025-01-01T00:00:00.000Z"
    "2025-06-15T15:06:40.000Z" ["orders:read"] (JStr "test-user")
    (Some "2025-06-15T15:06:40.000Z").

Definition demo_usage_row : UsageRecords.row :=
  UsageRecords.mk 1 (Some 1) "2025-06-15 15:06:40" "validate" "/validate"
    "127.0.0.1" (JStr "curl/8.0")
    (JObj [("service", JStr "svc"); ("scope", JStr "orders:read");
           ("result", JStr "allowed")]).



(** In a listing by descending key, [x] may stand before [y]: its key is not
    the smaller one. *)
Definition not_older {A : Type} (key : A -> string) (x y : A) : Prop :=
  String.ltb (key x) (key y) = false.

(** ** The key class of [models/ApiKey.js] *)

(** An [ApiKey] object; its methods mutate it, the model returns the object
    afterwards.  [expiration] is a Date object or null, as the class says:
    [None] is null, [Some tv] a Date of time value [tv] ([None] for NaN).
    [createdAt] and [updatedAt] are Dates, kept as time values. *)
Module ApiKey.
Record t : Type := mk {
  id : jsval;
  key : jsval;
  status : string;
  expiration : option (option Z);
  createdAt : Z;
  updatedAt : Z;
  scopes : list string;
  owner : jsval
}.

(** The constructor: [status], [createdAt], [updatedAt] and [scopes] have
    defaults, taken when the field is [undefined]; the two default Dates are
    two readings of the clock. *)
Definition new (clock1 clock2 : Z) (id key : jsval) (status : option string)
    (expiration : option (option Z)) (createdAt updatedAt : option Z)
    (scopes : option (list string)) (owner : jsval) : t :=
  mk id key
    (match status with Some st => st | None => "active" end)
    expiration
    (match createdAt with Some c => c | None => clock1 end)
    (match updatedAt with Some u => u | None => clock2 end)
    (match scopes with Some l => l | None => [] end)
    owner.

(** [isValid()], with [clock] the [new Date()] it reads. *)
Definition isValid (clock : Z) (k : t) : bool :=
  (status k =? "active")%string &&
  match expiration k with
  | None => true
  | Some tv => date_lt (Some clock) tv
  end.

(** [revoke()] *)
Definition revoke (clock : Z) (k : t) : t :=
  mk (id k) (key k) "revoked" (expiration k) (createdAt k) clock (scopes k)
    (owner k).

(** [updateScopes(newScopes)] *)
Definition updateScopes (clock : Z) (newScopes : list string) (k : t) : t :=
  mk (id k) (key k) (status k) (expiration k) (createdAt k) clock newScopes
    (owner k).

(** [hasScope(scope)] *)
Definition hasScope (scope : jsval) (k : t) : bool :=
  array_includes (scopes k) scope.

End ApiKey.

(** ** The consumer middleware of [example-consumer.js] *)

Module Consumer.

(** The characters [String.prototype.trim] strips, among the code units of a
    header value (0 to 255): tab, line feed, vertical tab, form feed,
    carriage return, space, no-break space. *)
Definition is_space (c : ascii) : bool :=
  let n := nat_of_ascii c in
  existsb (Nat.eqb n) [9; 10; 11; 12; 13; 32; 160]%nat.

Fixpoint trim_start (s : string) : string :=
  match s with
  | EmptyString => EmptyString
  | String c rest => if is_space c then trim_start rest else s
  end.

Fixpoint trim_end (s : string) : string :=
  match s with
  | EmptyString => EmptyString
  | String c rest =>
      match trim_end rest with
      | EmptyString => if is_space c then EmptyString else String c EmptyString
      | kept => String c kept
      end
  end.

(** [s.trim()] *)
Definition trim (s : string) : string := trim_end (trim_start s).

(** A string of characters that [trim] strips. *)
Fixpoint all_spaces (s : string) : bool :=
  match s with
  | EmptyString => true
  | String c rest => is_space c && all_spaces rest
  end.

(** [s.substring(n)] *)
Fixpoint drop (n : nat) (s : string) : string :=
  match n, s with
  | O, _ => s
  | S m, EmptyString => EmptyString
  | S m, String _ rest => drop m rest
  end.

(** The two header lookups of the middleware. *)
Record headers : Type := mkHeaders {
  authorization : option string;
  Authorization : option string
}.

Definition of_header (h : option string) : jsval :=
  match h with
  | Some v => JStr v
  | None => JUndefined
  end.

(** [result.name] on a parsed JSON value: a TypeError on null and
    undefined, [undefined] where the value has no such property. *)
Definition property (v : jsval) (name : string) : completion jsval :=
  match v with
  | JUndefined | JNull => Throw
  | JObj fields => Normal (assoc name fields)
  | _ => Normal JUndefined
  end.

(** How the middleware ends: it answers, or it calls [next()] with
    [req.apiKeyValidation] set. *)
Inductive outcome : Type :=
| Answer (r : http_response)
| Next (apiKeyValidation : jsval).

Section Middleware.
Context {S : Type}.

(** [fetch(apiManagerUrl + '/validate', ...)] followed by
    [response.json()]: the parsed body of the answer, or a rejection, and
    the state of what answers. *)
Variable fetch_validate : S -> jsval -> completion jsval * S.

(** The body the middleware posts. *)
Definition validate_body (apiKey requiredScope serviceName : string) : jsval :=
  JObj [("apiKey", JStr apiKey); ("scope", JStr requiredScope);
        ("service", JStr serviceName)].

Definition unauthorized (message : string) : http_response :=
  mkResponse 401 (JObj [("error", JStr message)]).

Definition validation_failed : http_response :=
  mkResponse 500 (JObj [("error", JStr "Internal server error during validation")]).

(** [validateApiKey(apiManagerUrl, requiredScope, serviceName)] on one
    request: the outcome, the state of the manager afterwards and the bodies
    posted to it. *)
Definition validateApiKey (requiredScope serviceName : string) (h : headers)
    (st : S) : outcome * S * list jsval :=
  let authHeader := or_else (of_header (authorization h)) (of_header (Authorization h)) in
  match authHeader with
  | JStr header =>
      if negb (truthy authHeader) || negb (String.prefix "Bearer " header) then
        (Answer (unauthorized "Missing or invalid Authorization header. Use: Authorization: Bearer <api-key>"), st, [])
      else
        let apiKey := trim (drop 7 header) in
        if negb (truthy (JStr apiKey)) then
          (Answer (unauthorized "Empty API key in Authorization header"), st, [])
        else
          let posted := validate_body apiKey requiredScope serviceName in
          let '(fetched, st') := fetch_validate st posted in
          match fetched with
          | Throw => (Answer validation_failed, st', [posted])
          | Normal result =>
              match property result "allowed" with
              | Throw => (Answer validation_failed, st', [posted])
              | Normal allowed =>
                  if negb (truthy allowed) then
                    (Answer (mkResponse 403
                               (JObj [("error", JStr "Access denied");
                                      ("reason", get result "reason")])),
                     st', [posted])
                  else
                    match property (get result "metadata") "keyId" with
                    | Throw => (Answer validation_failed, st', [posted])
                    | Normal _ => (Next (get result "metadata"), st', [posted])
                    end
              end
          end
  | _ =>
      (Answer (unauthorized "Missing or invalid Authorization header. Use: Authorization: Bearer <api-key>"), st, [])
  end.

End Middleware.

(** The manager as what the middleware fetches from: [POST /validate] on the
    posted body, answered with the JSON body of the response. *)
Definition manager {P : Platform} (e : env) (d : db) (posted : jsval)
    : completion jsval * db :=
  let h := post_validate e d (get posted "apiKey") (get posted "scope")
             (get posted "service") in
  (Normal (body (response h)), store h).

(** [GET /orders] behind the middleware. *)
Definition get_orders {P : Platform} (e : env) (clock : Z) (h : headers) (d : db)
    : http_response * db :=
  match validateApiKey (manager e) "orders:read" "order-service" h d with
  | (Answer r, d', _) => (r, d')
  | (Next apiKeyValidation, d', _) =>
      (mkResponse 200
         (JObj [("message", JStr "Orders data");
                ("accessedBy", get apiKeyValidation "owner");
                ("keyId", get apiKeyValidation "keyId");
                ("timestamp", JStr (toISOString clock))]),
       d')
  end.

End Consumer.

(** A request to the consumer that carries the demonstration key. *)
Definition demo_headers : Consumer.headers :=
  Consumer.mkHeaders (Some "Bearer  c0ffee ") None.

(** The decision of [POST /validate] on three strings that pass its
    guards. *)
Definition validate_decision_of {P : Platform} (e : env) (d : db)
    (k sc sv : string) : decision :=
  verdict (now e) (answered_at e) (JStr sc) (JStr sv) (matched k d).

(** * Properties *)

(** ** The scenarios of the test suite, run on the model *)

Example issue_answers_201_with_the_key :
  response demo_issued
  = mkResponse 201
      (JObj [("id", JNum 1); ("key", JStr "c0ffee"); ("owner", JStr "test-user");
             ("scopes", JArr [JStr "orders:read"]); ("expiration", JNull);
             ("status", JStr "active");
             ("created_at", JStr "2025-01-01T00:00:00.000Z")]).
Proof. reflexivity. Qed.

Example issue_without_owner_is_rejected :
  response (@post_api_keys demo_platform early_env "c0ffee" "5a17" empty_db
              JUndefined (JArr [JStr "read"]) JUndefined)
  = mkResponse 400 (JObj [("error", JStr "Owner is required")]).
Proof. reflexivity. Qed.

Example issue_with_a_number_among_scopes_is_rejected :
  code (response (@post_api_keys demo_platform early_env "c0ffee" "5a17" empty_db
                    (JStr "test-user") (JArr [JStr "read"; JNum 123]) JUndefined))
  = 400.
Proof. reflexivity. Qed.

Example validate_allows_the_granted_scope :
  get (body (response demo_used)) "allowed" = JBool true.
Proof. reflexivity. Qed.

Example validate_denies_another_scope :
  body (response (@post_validate demo_platform demo_env demo_db
                    (JStr "c0ffee") (JStr "orders:write") (JStr "svc")))
  = denied "Insufficient scope".
Proof. reflexivity. Qed.

Example validate_denies_a_revoked_key :
  body (response
          (@post_validate demo_platform demo_env
             (store (@patch_api_keys_id demo_platform demo_env demo_db "1" (JStr "revoked")))
             (JStr "c0ffee") (JStr "orders:read") (JStr "svc")))
  = denied "API key is revoked".
Proof. reflexivity. Qed.

Example validate_without_colon_is_rejected :
  response (@post_validate demo_platform demo_env demo_db
              (JStr "c0ffee") (JStr "invalid-scope") (JStr "svc"))
  = mkResponse 400 (JObj [("error", JStr scope_message)]).
Proof. reflexivity. Qed.

Example validate_with_a_number_as_scope_is_an_internal_error :
  code (response (@post_validate demo_platform demo_env demo_db
                    (JStr "c0ffee") (JNum 7) (JStr "svc"))) = 500.
Proof. reflexivity. Qed.

Example deleted_key_leaves_the_listing :
  body (response (get_api_keys (store demo_deleted))) = JArr [].
Proof. reflexivity. Qed.

Example usage_of_a_deleted_key_is_still_served :
  get (body (response (@get_api_keys_id_usage demo_platform (store demo_used_deleted) "1")))
      "totalRequests" = JNum 1.
Proof. reflexivity. Qed.

Example issue_with_a_boolean_owner_ends_in_catch :
  @post_api_keys demo_platform early_env "c0ffee" "5a17" empty_db
    (JBool true) (JArr [JStr "orders:read"]) JUndefined
  = mkHandled (mkResponse 500 (JObj [("error", JStr "Internal server error")]))
      empty_db [Run InsertKey; ConsoleError "Error creating API key:"].
Proof. reflexivity. Qed.

Example issue_with_a_number_as_owner_stores_its_text :
  map ApiKeys.owner
    (api_keys (store (@post_api_keys demo_platform early_env "c0ffee" "5a17"
                        empty_db (JNum 42) (JArr [JStr "orders:read"]) JUndefined)))
  = [JStr "42.0"].
Proof. reflexivity. Qed.

Example usage_by_another_spelling_of_the_id :
  get (body (response (@get_api_keys_id_usage demo_platform (store demo_used_deleted) "10e-1")))
      "keyId" = JNum 10 /\
  get (body (response (@get_api_keys_id_usage demo_platform (store demo_used_deleted) "10e-1")))
      "totalRequests" = JNum 1.
Proof. split; reflexivity. Qed.

(** ** Strings and scopes *)

Lemma prefix_empty (s : string) : String.prefix "" s = true.
Proof. destruct s; reflexivity. Qed.

Lemma prefix_colon (s : string) :
  String.prefix ":" s = true <-> exists rest, s = String ":" rest.
Proof.
  destruct s as [|c rest]; cbn [String.prefix].
  - split; [discriminate | intros [r Hr]; discriminate].
  - destruct (ascii_dec ":" c) as [<-|Hne].
    + rewrite prefix_empty. split; eauto.
    + split; [discriminate|]. intros [r Hr]. inversion Hr; congruence.
Qed.

(** [s.includes(':')] holds exactly when [s] splits around a [':']. *)
Lemma includes_colon (s : string) :
  includes s ":" = true <-> exists a b : string, s = a ++ ":" ++ b.
Proof.
  induction s as [|c rest IH].
  - simpl. split; [discriminate|].
    intros (a & b & Hab). destruct a; discriminate.
  - change (includes (String c rest) ":")
      with (String.prefix ":" (String c rest) || includes rest ":").
    rewrite orb_true_iff, prefix_colon, IH. split.
    + intros [[r Hr]|(a & b & Hab)].
      * exists "", r. exact Hr.
      * exists (String c a), b. simpl. now rewrite Hab.
    + intros (a & b & Hab). destruct a as [|c' a'].
      * left. exists b. exact Hab.
      * right. exists a', b. simpl in Hab. now inversion Hab.
Qed.

Lemma includes_append_colon (a b : string) : includes (a ++ ":" ++ b) ":" = true.
Proof. apply includes_colon. eauto. Qed.

(** C2, as stated, fails: the one-character string [":"] passes the test of
    both handlers, and neither of its two sides is non-empty. *)
Lemma scope_check_accepts_bare_colon :
  scope_ok_create (JStr ":") = true /\
  scope_ok_validate (JStr ":") = Normal true /\
  ~ isWellFormed_spec ":".
Proof.
  split; [reflexivity|]. split; [reflexivity|].
  intros (before & after & Hs & _ & Hb & Ha).
  destruct before as [|c before]; [congruence|].
  simpl in Hs. injection Hs as _ Hrest.
  destruct before; discriminate.
Qed.

(** C2, amended: for every string, the scope test of key creation and the
    scope test of validation are the same test, and it holds if and only if
    the string contains at least one [':']; nothing is asked of the two
    sides.  Every string that is well-formed in the sense of the
    specification passes it. *)
Theorem scope_check_is_colon_presence (s : string) :
  (scope_ok_create (JStr s) = true <-> exists a b : string, s = a ++ ":" ++ b) /\
  (scope_ok_validate (JStr s) = Normal true <-> exists a b : string, s = a ++ ":" ++ b) /\
  (isWellFormed_spec s -> scope_ok_create (JStr s) = true).
Proof.
  split; [apply includes_colon|]. split.
  - unfold scope_ok_validate; simpl. rewrite <- includes_colon.
    split; [now intros [= ->] | now intros ->].
  - intros (a & b & -> & _). apply includes_append_colon.
Qed.

Lemma scope_check_is_colon_presence_witness :
  isWellFormed_spec "orders:read" /\ scope_ok_create (JStr "orders:read") = true.
Proof.
  assert (W : isWellFormed_spec "orders:read").
  { exists "orders", "read". repeat split; discriminate. }
  split; [exact W|].
  exact (proj2 (proj2 (scope_check_is_colon_presence "orders:read")) W).
Defined.

(** ** UPDATE statements *)

Lemma sql_update_rows {A : Type} (w : A -> bool) (f : A -> A) (rows : list A) :
  fst (sql_update w f rows) = map (fun r => if w r then f r else r) rows.
Proof. reflexivity. Qed.

Lemma sql_update_no_change {A : Type} (w : A -> bool) (f : A -> A) (rows : list A) :
  snd (sql_update w f rows) = 0 <-> forall r, In r rows -> w r = false.
Proof.
  unfold sql_update; simpl. induction rows as [|x rows IH]; simpl.
  - split; [intros _ r [] | reflexivity].
  - destruct (w x) eqn:Hx; simpl.
    + split; [lia|]. intros H. specialize (H x (or_introl eq_refl)). congruence.
    + rewrite IH. split.
      * intros H r [<-|Hr]; auto.
      * intros H r Hr. apply H. now right.
Qed.

Lemma sql_update_untouched {A : Type} (w : A -> bool) (f : A -> A) (rows : list A) :
  (forall r, In r rows -> w r = false) -> fst (sql_update w f rows) = rows.
Proof.
  intros H. rewrite sql_update_rows.
  rewrite <- (map_id rows) at 2. apply map_ext_in.
  intros r Hr. now rewrite (H r Hr).
Qed.

Lemma sql_update_in {A : Type} (w : A -> bool) (f : A -> A) (rows : list A) (r : A) :
  In r rows -> In (if w r then f r else r) (fst (sql_update w f rows)).
Proof.
  intros Hr. rewrite sql_update_rows.
  apply (in_map (fun r => if w r then f r else r)). exact Hr.
Qed.

Lemma db_eta (d : db) : mkDb (api_keys d) (usage_records d) = d.
Proof. now destruct d. Qed.

(** ** Revocation *)

Section Revoke.
Context {P : Platform}.

Lemma is_id_true (id : string) (i : Z) :
  is_id id i = true <-> sqlite_integer id = Some i.
Proof.
  unfold is_id. destruct (sqlite_integer id) as [j|].
  - rewrite Z.eqb_eq. split; [intros ->; reflexivity | now intros [= ->]].
  - split; discriminate.
Qed.

Lemma is_id_of (id : string) (j i : Z) :
  sqlite_integer id = Some j -> is_id id i = (i =? j).
Proof. unfold is_id. now intros ->. Qed.

Lemma patch_revoked (e : env) (d : db) (id : string) :
  patch_api_keys_id e d id (JStr "revoked") =
  let u := sql_update (fun k => is_id id (ApiKeys.id k))
             (set_status "revoked" (toISOString (now e))) (api_keys d) in
  if snd u =? 0 then
    json 404 (JObj [("error", JStr "API key not found")])
      (mkDb (fst u) (usage_records d)) [Run (UpdateStatus id)]
  else
    json 200
      (JObj [("id", of_number (parseInt id)); ("status", JStr "revoked");
             ("updated_at", JStr (toISOString (now e)))])
      (mkDb (fst u) (usage_records d)) [Run (UpdateStatus id)].
Proof. reflexivity. Qed.

Lemma no_row_of_id (d : db) (id : string) :
  (forall i, sqlite_integer id = Some i -> ~ In i (map ApiKeys.id (api_keys d))) ->
  forall r, In r (api_keys d) -> is_id id (ApiKeys.id r) = false.
Proof.
  intros Hno r Hr. destruct (is_id id (ApiKeys.id r)) eqn:Hi; [|reflexivity].
  apply is_id_true in Hi. exfalso. apply (Hno _ Hi). now apply in_map.
Qed.

End Revoke.

(** C3, as stated, fails: key 1 of the demonstration store is soft-deleted,
    and revoking it answers 200 and rewrites its status. *)
Lemma revoke_of_deleted_key_succeeds :
  map ApiKeys.id (api_keys (store demo_deleted)) = [1] /\
  map ApiKeys.deleted_at (api_keys (store demo_deleted))
    = [Some "2025-06-15T15:06:40.000Z"] /\
  map ApiKeys.status (api_keys (store demo_deleted)) = ["active"] /\
  code (response demo_revoked_after_delete) = 200 /\
  map ApiKeys.status (api_keys (store demo_revoked_after_delete)) = ["revoked"].
Proof. repeat split. Qed.

(** C3, amended: for every id with no record at all, revoke fails with 404
    and leaves the store unchanged; for every id that has a record, whether
    or not its deletedAt is set, revoke answers 200, sets the status of that
    record to revoked and refreshes its updatedAt, keeps its deletedAt and
    every other column, and leaves the usage records alone.  So a
    soft-deleted id is revoked like a live one, and is told apart from an
    absent one.  The id is the one the path segment denotes for the store;
    a segment that denotes no integer is one with no record. *)
Theorem revoke_absent_404_present_200 {P : Platform} (e : env) (d : db)
    (id : string) :
  ((forall i : Z, sqlite_integer id = Some i ->
               ~ In i (map ApiKeys.id (api_keys d))) ->
   code (response (patch_api_keys_id e d id (JStr "revoked"))) = 404 /\
   store (patch_api_keys_id e d id (JStr "revoked")) = d) /\
  (forall r : ApiKeys.row,
   In r (api_keys d) -> sqlite_integer id = Some (ApiKeys.id r) ->
   code (response (patch_api_keys_id e d id (JStr "revoked"))) = 200 /\
   In (set_status "revoked" (toISOString (now e)) r)
      (api_keys (store (patch_api_keys_id e d id (JStr "revoked")))) /\
   ApiKeys.deleted_at (set_status "revoked" (toISOString (now e)) r)
     = ApiKeys.deleted_at r /\
   usage_records (store (patch_api_keys_id e d id (JStr "revoked")))
     = usage_records d).
Proof.
  rewrite patch_revoked. cbv zeta. split.
  - intros Hno. pose proof (no_row_of_id d id Hno) as Hw.
    rewrite (proj2 (sql_update_no_change _ _ _) Hw), Z.eqb_refl.
    cbn [json response store code]. split; [reflexivity|].
    rewrite (sql_update_untouched _ _ _ Hw). apply db_eta.
  - intros r Hr Hid.
    assert (Hwr : is_id id (ApiKeys.id r) = true) by now apply is_id_true.
    destruct (snd (sql_update (fun k => is_id id (ApiKeys.id k))
                     (set_status "revoked" (toISOString (now e))) (api_keys d)) =? 0)
      eqn:Hc.
    + apply Z.eqb_eq in Hc.
      rewrite (proj1 (sql_update_no_change _ _ _) Hc r Hr) in Hwr. discriminate.
    + cbn [json response store code api_keys usage_records].
      repeat split.
      pose proof (sql_update_in (fun k => is_id id (ApiKeys.id k))
                    (set_status "revoked" (toISOString (now e))) (api_keys d) r Hr) as Hin.
      cbv beta in Hin. now rewrite Hwr in Hin.
Qed.

Lemma revoke_absent_404_present_200_witness :
  (@sqlite_integer demo_platform "7" = Some 7 /\
   ~ In 7 (map ApiKeys.id (api_keys (store demo_deleted))) /\
   code (response (@patch_api_keys_id demo_platform demo_env (store demo_deleted) "7" (JStr "revoked"))) = 404) /\
  (In demo_deleted_row
      (api_keys (store demo_deleted)) /\
   code (response (@patch_api_keys_id demo_platform demo_env (store demo_deleted) "1" (JStr "revoked"))) = 200).
Proof.
  assert (Habsent : forall i : Z, @sqlite_integer demo_platform "7" = Some i ->
                    ~ In i (map ApiKeys.id (api_keys (store demo_deleted)))).
  { intros i [= <-]. vm_compute. intros [H|[]]. discriminate. }
  assert (Hpresent :
    In demo_deleted_row
       (api_keys (store demo_deleted))).
  { vm_compute. left. reflexivity. }
  split.
  - split; [reflexivity|]. split; [exact (Habsent 7 eq_refl)|].
    exact (proj1 (proj1 (@revoke_absent_404_present_200
                           demo_platform demo_env (store demo_deleted) "7") Habsent)).
  - split; [assumption|].
    exact (proj1 (proj2 (@revoke_absent_404_present_200
                           demo_platform demo_env (store demo_deleted) "1") _ Hpresent eq_refl)).
Defined.

(** ** Soft deletion *)

Section SoftDelete.
Context {P : Platform}.

Lemma delete_unfold (e : env) (d : db) (id : string) :
  delete_api_keys_id e d id =
  let u := sql_update (deletable id) (set_deleted (toISOString (now e)))
             (api_keys d) in
  if snd u =? 0 then
    json 404 (JObj [("error", JStr "API key not found or already deleted")])
      (mkDb (fst u) (usage_records d)) [Run (UpdateDeleted id)]
  else
    json 200
      (JObj [("id", of_number (parseInt id));
             ("deleted_at", JStr (toISOString (now e)))])
      (mkDb (fst u) (usage_records d)) [Run (UpdateDeleted id)].
Proof. reflexivity. Qed.

Lemma delete_rows (e : env) (d : db) (id : string) :
  api_keys (store (delete_api_keys_id e d id)) =
  map (fun k => if deletable id k then set_deleted (toISOString (now e)) k else k)
    (api_keys d).
Proof.
  rewrite delete_unfold. cbv zeta.
  destruct (snd _ =? 0); reflexivity.
Qed.

Lemma delete_usage (e : env) (d : db) (id : string) :
  usage_records (store (delete_api_keys_id e d id)) = usage_records d.
Proof.
  rewrite delete_unfold. cbv zeta.
  destruct (snd _ =? 0); reflexivity.
Qed.

Lemma delete_code (e : env) (d : db) (id : string) :
  code (response (delete_api_keys_id e d id)) =
  if existsb (deletable id) (api_keys d) then 200 else 404.
Proof.
  rewrite delete_unfold. cbv zeta.
  destruct (existsb (deletable id) (api_keys d)) eqn:Hex.
  - apply existsb_exists in Hex. destruct Hex as (r & Hr & Hw).
    destruct (snd _ =? 0) eqn:Hc; [|reflexivity].
    apply Z.eqb_eq in Hc.
    rewrite (proj1 (sql_update_no_change _ _ _) Hc r Hr) in Hw. discriminate.
  - assert (Hnone : forall r, In r (api_keys d) -> deletable id r = false).
    { intros r Hr. destruct (deletable id r) eqn:Hw; [|reflexivity].
      assert (existsb (deletable id) (api_keys d) = true)
        by (apply existsb_exists; eauto).
      congruence. }
    now rewrite (proj2 (sql_update_no_change _ _ _) Hnone).
Qed.

(** After a soft delete of [id], no row of that id is left to delete. *)
Lemma nothing_deletable_after_delete (e : env) (d : db) (id : string) :
  forall r, In r (api_keys (store (delete_api_keys_id e d id))) ->
            deletable id r = false.
Proof.
  intros r'. rewrite delete_rows, in_map_iff. intros (r & <- & _).
  destruct (deletable id r) eqn:Hw; [|exact Hw].
  unfold deletable, live. cbn [set_deleted ApiKeys.deleted_at].
  apply andb_false_r.
Qed.

End SoftDelete.

(** C8: the soft delete sets deletedAt and updatedAt (to the time of the
    call) on exactly the rows of the given id whose deletedAt was unset, and
    changes no other row, no other column and no usage record; it answers 200
    when there is such a row; when the id is absent or already soft-deleted
    it answers 404 and the store is unchanged; so a second delete of the same
    id answers 404 and changes nothing.  The id is the one the path segment
    denotes for the store. *)
Theorem soft_delete_only_once {P : Platform} (e e2 : env) (d : db) (id : string) :
  api_keys (store (delete_api_keys_id e d id)) =
    map (fun k =>
           if is_id id (ApiKeys.id k) && live k then
             ApiKeys.mk (ApiKeys.id k) (ApiKeys.key_hash k) (ApiKeys.salt k)
               (ApiKeys.status k) (ApiKeys.expiration k) (ApiKeys.created_at k)
               (toISOString (now e)) (ApiKeys.scopes k) (ApiKeys.owner k)
               (Some (toISOString (now e)))
           else k)
      (api_keys d) /\
  usage_records (store (delete_api_keys_id e d id)) = usage_records d /\
  ((exists r, In r (api_keys d) /\ sqlite_integer id = Some (ApiKeys.id r) /\
              ApiKeys.deleted_at r = None) ->
   code (response (delete_api_keys_id e d id)) = 200) /\
  ((forall r, In r (api_keys d) -> sqlite_integer id = Some (ApiKeys.id r) ->
              ApiKeys.deleted_at r <> None) ->
   code (response (delete_api_keys_id e d id)) = 404 /\
   store (delete_api_keys_id e d id) = d) /\
  code (response (delete_api_keys_id e2 (store (delete_api_keys_id e d id)) id)) = 404 /\
  store (delete_api_keys_id e2 (store (delete_api_keys_id e d id)) id)
    = store (delete_api_keys_id e d id).
Proof.
  assert (Hgone : forall e0 d0,
            (forall r, In r (api_keys d0) -> deletable id r = false) ->
            code (response (delete_api_keys_id e0 d0 id)) = 404 /\
            store (delete_api_keys_id e0 d0 id) = d0).
  { intros e0 d0 Hnone. split.
    - rewrite delete_code.
      destruct (existsb (deletable id) (api_keys d0)) eqn:Hex; [|reflexivity].
      apply existsb_exists in Hex. destruct Hex as (r & Hr & Hw).
      rewrite (Hnone r Hr) in Hw. discriminate.
    - rewrite delete_unfold. cbv zeta.
      rewrite (proj2 (sql_update_no_change _ _ _) Hnone), Z.eqb_refl.
      cbn [json store]. rewrite (sql_update_untouched _ _ _ Hnone). apply db_eta. }
  split; [apply delete_rows|]. split; [apply delete_usage|]. split; [|split].
  - intros (r & Hr & Hid & Hlive). rewrite delete_code.
    assert (Hex : existsb (deletable id) (api_keys d) = true).
    { apply existsb_exists. exists r. split; [exact Hr|].
      unfold deletable, live. rewrite Hlive, andb_true_r. now apply is_id_true. }
    now rewrite Hex.
  - intros Hdel. apply Hgone. intros r Hr. unfold deletable.
    destruct (is_id id (ApiKeys.id r)) eqn:Hid; [|reflexivity].
    apply is_id_true in Hid. specialize (Hdel r Hr Hid).
    unfold live. destruct (ApiKeys.deleted_at r); [reflexivity | congruence].
  - apply Hgone. apply nothing_deletable_after_delete.
Qed.

Lemma soft_delete_only_once_witness :
  (exists r, In r (api_keys demo_db) /\
             @sqlite_integer demo_platform "1" = Some (ApiKeys.id r) /\
             ApiKeys.deleted_at r = None) /\
  code (response (@delete_api_keys_id demo_platform demo_env demo_db "1")) = 200 /\
  (forall r, In r (api_keys demo_db) ->
             @sqlite_integer demo_platform "2" = Some (ApiKeys.id r) ->
             ApiKeys.deleted_at r <> None) /\
  code (response (@delete_api_keys_id demo_platform demo_env demo_db "2")) = 404.
Proof.
  assert (Hlive : exists r, In r (api_keys demo_db) /\
                            @sqlite_integer demo_platform "1" = Some (ApiKeys.id r)
                            /\ ApiKeys.deleted_at r = None).
  { eexists. split; [left; reflexivity|]. split; reflexivity. }
  assert (Habsent : forall r, In r (api_keys demo_db) ->
                              @sqlite_integer demo_platform "2" = Some (ApiKeys.id r) ->
                              ApiKeys.deleted_at r <> None).
  { intros r [<-|[]] Hid. vm_compute in Hid. discriminate. }
  split; [exact Hlive|]. split.
  - exact (proj1 (proj2 (proj2 (@soft_delete_only_once demo_platform demo_env demo_env demo_db "1"))) Hlive).
  - split; [exact Habsent|].
    exact (proj1 (proj1 (proj2 (proj2 (proj2
             (@soft_delete_only_once demo_platform demo_env demo_env demo_db "2")))) Habsent)).
Defined.

(** ** Validation *)

Section Validate.
Context {P : Platform}.

Lemma find_key_string (k : string) (keys : list ApiKeys.row) :
  find_key (JStr k) keys = Normal (List.find (verifies k) keys).
Proof.
  induction keys as [|key rest IH]; [reflexivity|].
  cbn [find_key scryptSync bind List.find]. unfold verifies at 1.
  rewrite String.eqb_sym.
  destruct (ApiKeys.key_hash key =? scrypt k (ApiKeys.salt key))%string;
    [reflexivity | exact IH].
Qed.

Lemma passes_inv (apiKey scope service : jsval) :
  passes_input_validation apiKey scope service = true ->
  truthy apiKey = true /\ truthy scope = true /\ truthy service = true /\
  scope_ok_validate scope = Normal true.
Proof.
  unfold passes_input_validation. rewrite !andb_true_iff.
  intros [[[Ha Hs] Hv] Hok]. repeat split; try assumption.
  destruct (scope_ok_validate scope); [now subst | discriminate].
Qed.

(** A validation call with a string key that passes the guards: the answer
    renders the verdict on the matched record, after one call of
    [logUsage]. *)
Lemma post_validate_run (e : env) (d : db) (k : string) (scope service : jsval) :
  passes_input_validation (JStr k) scope service = true ->
  post_validate e d (JStr k) scope service =
  mkHandled (render (verdict (now e) (answered_at e) scope service (matched k d)))
    (fst (usage_call e d scope service (matched k d)))
    (Run SelectCandidates :: snd (usage_call e d scope service (matched k d))).
Proof.
  intros Hp. apply passes_inv in Hp. destruct Hp as (Ha & Hs & Hv & Hok).
  unfold post_validate. rewrite Ha, Hs, Hv, Hok. cbn [negb orb].
  rewrite find_key_string. fold (matched k d). unfold usage_call.
  destruct (matched k d) as [keyData|]; cbn [verdict option_map].
  - destruct (negb (ApiKeys.status keyData =? "active")%string).
    { cbn [result_name]. now destruct (logUsage _ _ _ _ _ _ _ _). }
    destruct (truthy (ApiKeys.expiration keyData)
              && date_lt (new_Date (ApiKeys.expiration keyData)) (Some (now e))).
    { cbn [result_name]. now destruct (logUsage _ _ _ _ _ _ _ _). }
    destruct (negb (array_includes (ApiKeys.scopes keyData) scope)).
    { cbn [result_name]. now destruct (logUsage _ _ _ _ _ _ _ _). }
    cbn [result_name]. now destruct (logUsage _ _ _ _ _ _ _ _).
  - cbn [result_name]. now destruct (logUsage _ _ _ _ _ _ _ _).
Qed.

(** A call that does not pass the guards is answered without a statement on
    the store. *)
Lemma post_validate_rejected (e : env) (d : db) (apiKey scope service : jsval) :
  passes_input_validation apiKey scope service = false ->
  store (post_validate e d apiKey scope service) = d /\
  store_accesses (trace (post_validate e d apiKey scope service)) = [] /\
  In (response (post_validate e d apiKey scope service)) validate_errors.
Proof.
  unfold passes_input_validation, post_validate. intros Hp.
  destruct (truthy apiKey), (truthy scope), (truthy service);
    cbn [negb orb andb] in *;
    try (repeat split; left; reflexivity).
  destruct (scope_ok_validate scope) as [[|]|]; try discriminate.
  - repeat split. right; left; reflexivity.
  - repeat split. right; right; left; reflexivity.
Qed.

Lemma matched_in (k : string) (d : db) (r : ApiKeys.row) :
  matched k d = Some r ->
  In r (api_keys d) /\ ApiKeys.deleted_at r = None /\ verifies k r = true.
Proof.
  unfold matched, select_candidates. intros H.
  apply find_some in H. destruct H as [Hin Hv].
  apply filter_In in Hin. destruct Hin as [Hin Hl].
  repeat split; try assumption.
  unfold live in Hl. now destruct (ApiKeys.deleted_at r).
Qed.

Lemma matched_none (k : string) (d : db) :
  (forall r, In r (api_keys d) -> ApiKeys.deleted_at r = None -> verifies k r = false) ->
  matched k d = None.
Proof.
  intros H. unfold matched.
  destruct (List.find _ _) as [r|] eqn:Hf; [|reflexivity].
  destruct (matched_in k d r Hf) as (Hin & Hl & Hv).
  rewrite (H r Hin Hl) in Hv. discriminate.
Qed.

Lemma array_includes_in (scopes : list string) (s : string) :
  array_includes scopes (JStr s) = true <-> In s scopes.
Proof.
  unfold array_includes. rewrite existsb_exists. split.
  - intros (x & Hx & He). cbn [is_str] in He.
    apply String.eqb_eq in He. now subst.
  - intros H. exists s. split; [exact H|]. apply String.eqb_refl.
Qed.


Lemma find_key_no_string (apiKey : jsval) (keys : list ApiKeys.row) :
  (forall s, apiKey <> JStr s) ->
  find_key apiKey keys = match keys with [] => Normal None | _ :: _ => Throw end.
Proof.
  intros Hno. destruct keys as [|key rest]; [reflexivity|].
  cbn [find_key]. destruct apiKey; try reflexivity.
  exfalso. now apply (Hno s).
Qed.

(** A presented key that is no string and passes the guards: the scan ends
    at once when there is no live record, and throws at the first one. *)
Lemma post_validate_no_string (e : env) (d : db) (apiKey scope service : jsval) :
  (forall s, apiKey <> JStr s) ->
  passes_input_validation apiKey scope service = true ->
  (select_candidates d = [] ->
   response (post_validate e d apiKey scope service) = render (Denied invalid_key) /\
   usage_writes (trace (post_validate e d apiKey scope service))
   = [InsertUsage None "validate" "/validate" (req_ip e) (req_user_agent e)
        (usage_metadata service scope "invalid_key")] /\
   store (post_validate e d apiKey scope service)
   = fst (logUsage e d None "validate" "/validate" (req_ip e) (req_user_agent e)
            (usage_metadata service scope "invalid_key"))) /\
  (select_candidates d <> [] ->
   response (post_validate e d apiKey scope service)
   = mkResponse 500 (JObj [("error", JStr "Internal server error")]) /\
   store (post_validate e d apiKey scope service) = d /\
   trace (post_validate e d apiKey scope service)
   = [Run SelectCandidates; ConsoleError "Error validating API key:"]).
Proof.
  intros Hno Hp. apply passes_inv in Hp. destruct Hp as (Ha & Hs & Hv & Hok).
  unfold post_validate. rewrite Ha, Hs, Hv, Hok. cbn [negb orb].
  rewrite (find_key_no_string apiKey _ Hno). split.
  - intros ->. unfold logUsage.
    destruct (usage_insert_ok e); cbn [json response trace store fst]; now repeat split.
  - intros Hne. destruct (select_candidates d); [congruence|].
    now repeat split.
Qed.

End Validate.

(** ** C1: the validation handler against the algorithm of the specification *)

Section Refinement.
Context {P : Platform}.






End Refinement.




(** ** Invariants of the reachable stores *)

Section Invariants.
Context {P : Platform}.

Lemma logUsage_keys (e : env) (d : db) a b c i u m :
  api_keys (fst (logUsage e d a b c i u m)) = api_keys d.
Proof. unfold logUsage. now destruct (usage_insert_ok e). Qed.

Lemma logUsage_usage (e : env) (d : db) a b c i u m :
  exists extra, usage_records (fst (logUsage e d a b c i u m))
                = (usage_records d ++ extra)%list.
Proof.
  unfold logUsage. destruct (usage_insert_ok e); cbn [fst usage_records].
  - eauto.
  - exists []. now rewrite app_nil_r.
Qed.

Ltac validate_cases :=
  unfold post_validate, internal_error, json;
  repeat match goal with
         | |- context [if ?b then _ else _] => destruct b
         | |- context [match scope_ok_validate ?s with _ => _ end] =>
             destruct (scope_ok_validate s) as [[|]|]
         | |- context [match find_key ?a ?l with _ => _ end] =>
             destruct (find_key a l) as [[?|]|]
         | |- context [let '(_, _) := ?p in _] =>
             let E := fresh "E" in destruct p eqn:E
         end.

Lemma post_validate_keys (e : env) (d : db) (apiKey scope service : jsval) :
  api_keys (store (post_validate e d apiKey scope service)) = api_keys d.
Proof.
  validate_cases; cbn [store]; try reflexivity;
    match goal with
    | E : logUsage _ _ _ _ _ _ _ _ = (?d', _) |- api_keys ?d' = _ =>
        change d' with (fst (d', @nil event)); cbn [fst];
        pose proof (f_equal fst E) as E'; cbn [fst] in E'; rewrite <- E';
        apply logUsage_keys
    end.
Qed.

Lemma post_validate_usage (e : env) (d : db) (apiKey scope service : jsval) :
  exists extra, usage_records (store (post_validate e d apiKey scope service))
                = (usage_records d ++ extra)%list.
Proof.
  validate_cases; cbn [store];
    try (exists []; now rewrite app_nil_r);
    match goal with
    | E : logUsage _ _ _ _ _ _ _ _ = (?d', _) |- _ =>
        pose proof (f_equal fst E) as E'; cbn [fst] in E'; rewrite <- E';
        apply logUsage_usage
    end.
Qed.

Lemma post_api_keys_store (e : env) (key salt : string) (d : db)
    (owner scopes expiration : jsval) :
  store (post_api_keys e key salt d owner scopes expiration) = d \/
  exists expiration_cell owner_cell : jsval,
    truthy owner = true /\
    bind_text (or_else expiration JNull) = Normal expiration_cell /\
    bind_text owner = Normal owner_cell /\
    store (post_api_keys e key salt d owner scopes expiration) =
      mkDb (api_keys d ++
              [ApiKeys.mk (fresh_id (map ApiKeys.id (api_keys d)))
                 (scrypt key salt) salt "active" expiration_cell
                 (toISOString (now e)) (toISOString (now e))
                 (strings_of (match scopes with JUndefined => JArr [] | v => v end))
                 owner_cell None])
           (usage_records d).
Proof.
  unfold post_api_keys, json, internal_error.
  destruct (truthy owner); cbn [negb]; [|now left].
  destruct (negb (scopes_ok _)); [now left|].
  destruct (bind_text (or_else expiration JNull)) as [expiration_cell|];
    [|now left].
  destruct (bind_text owner) as [owner_cell|]; [|now left].
  right. now exists expiration_cell, owner_cell.
Qed.

Lemma patch_store (e : env) (d : db) (id : string) (status : jsval) :
  store (patch_api_keys_id e d id status) = d \/
  store (patch_api_keys_id e d id status) =
    mkDb (map (fun k => if is_id id (ApiKeys.id k)
                        then set_status "revoked" (toISOString (now e)) k else k)
            (api_keys d))
         (usage_records d).
Proof.
  unfold patch_api_keys_id, json, sql_update.
  destruct (negb (is_str status "revoked")); [now left|].
  right. now destruct (_ =? 0).
Qed.

Lemma delete_store (e : env) (d : db) (id : string) :
  store (delete_api_keys_id e d id) =
    mkDb (map (fun k => if deletable id k
                        then set_deleted (toISOString (now e)) k else k)
            (api_keys d))
         (usage_records d).
Proof.
  unfold delete_api_keys_id, json, sql_update. now destruct (_ =? 0).
Qed.

Lemma fresh_id_above (ids : list Z) (i : Z) : In i ids -> i < fresh_id ids.
Proof.
  unfold fresh_id. induction ids as [|j ids IH]; [intros []|].
  cbn [fold_right]. intros [<-|Hi]; [lia|]. specialize (IH Hi). lia.
Qed.

Lemma map_id_conditional (w : ApiKeys.row -> bool) (f : ApiKeys.row -> ApiKeys.row)
    (rows : list ApiKeys.row) :
  (forall k, ApiKeys.id (f k) = ApiKeys.id k) ->
  map ApiKeys.id (map (fun k => if w k then f k else k) rows) = map ApiKeys.id rows.
Proof.
  intros Hf. rewrite map_map. apply map_ext. intros k. now destruct (w k).
Qed.

(** Every request keeps column [id] a key of [api_keys]. *)
Lemma unique_ids_step (r : request) (d : db) :
  unique_ids d -> unique_ids (store (handle r d)).
Proof.
  unfold unique_ids. intros Hd. destruct r; cbn [handle].
  - destruct (post_api_keys_store e key salt d owner scopes expiration)
      as [->|(expiration_cell & owner_cell & _ & _ & _ & ->)]; [exact Hd|].
    cbn [api_keys]. rewrite map_app. apply NoDup_app; [exact Hd | repeat constructor; intros [] |].
    intros a Ha [<-|[]]. apply fresh_id_above in Ha. cbn [ApiKeys.id] in Ha. lia.
  - exact Hd.
  - destruct (patch_store e d id status) as [->| ->]; [exact Hd|].
    cbn [api_keys]. now rewrite map_id_conditional.
  - rewrite delete_store. cbn [api_keys]. now rewrite map_id_conditional.
  - now rewrite post_validate_keys.
  - exact Hd.
Qed.

Lemma expiration_bound_or_else (v : jsval) :
  expiration_bound (or_else v JNull) = true.
Proof. unfold or_else. destruct (truthy v) eqn:Hv; [|reflexivity]. now destruct v. Qed.

Lemma text_truthy (s : string) : truthy (JStr s) = true <-> s <> EmptyString.
Proof.
  cbn [truthy]. destruct s; cbn; split; congruence.
Qed.

Lemma bind_text_bound (v cell : jsval) :
  expiration_bound v = true -> bind_text v = Normal cell ->
  expiration_bound cell = true.
Proof.
  destruct v; cbn [bind_text]; intros Hv [= <-]; try exact Hv; try reflexivity.
  cbn [expiration_bound]. apply text_truthy, sqlite_text_nonempty.
Qed.


Lemma forallb_conditional (p : ApiKeys.row -> bool) (w : ApiKeys.row -> bool)
    (f : ApiKeys.row -> ApiKeys.row) (rows : list ApiKeys.row) :
  (forall k, p (f k) = p k) ->
  forallb p (map (fun k => if w k then f k else k) rows) = forallb p rows.
Proof.
  intros Hf. induction rows as [|k rows IH]; [reflexivity|].
  cbn [map forallb]. rewrite IH. now destruct (w k); rewrite ?Hf.
Qed.

(** Every request keeps the stored expirations NULL or truthy. *)
Lemma expirations_bound_step (r : request) (d : db) :
  expirations_bound d = true -> expirations_bound (store (handle r d)) = true.
Proof.
  unfold expirations_bound. intros Hd. destruct r; cbn [handle].
  - destruct (post_api_keys_store e key salt d owner scopes expiration)
      as [->|(expiration_cell & owner_cell & _ & Hexp & _ & ->)]; [exact Hd|].
    cbn [api_keys]. rewrite forallb_app, Hd. cbn [forallb ApiKeys.expiration].
    now rewrite (bind_text_bound _ _ (expiration_bound_or_else expiration) Hexp).
  - exact Hd.
  - destruct (patch_store e d id status) as [->| ->]; [exact Hd|].
    cbn [api_keys]. now rewrite forallb_conditional.
  - rewrite delete_store. cbn [api_keys]. now rewrite forallb_conditional.
  - now rewrite post_validate_keys.
  - exact Hd.
Qed.


(** The stores the service reaches have unique key ids and bound
    expirations. *)
Lemma reachable_invariant (d : db) :
  reachable d -> unique_ids d /\ expirations_bound d = true.
Proof.
  induction 1 as [|r d Hd [IHu IHb]].
  - split; [constructor | reflexivity].
  - split; [now apply unique_ids_step | now apply expirations_bound_step].
Qed.

End Invariants.

(** ** One usage record per validation *)

Section Usage.
Context {P : Platform}.



Lemma render_code (dc : decision) : code (render dc) = 200.
Proof. now destruct dc. Qed.

End Usage.




(** C7: whether or not the INSERT of the usage record fails, the validation
    handler gives the same answer, for every request.  When it fails on a
    call that passed the guards, the answer is still the decision with
    status 200, the store is unchanged, and the failure is one line on the
    operational log after the one attempted INSERT. *)
Theorem usage_failure_keeps_answer {P : Platform} (e : env) (d : db)
    (apiKey scope service : jsval) :
  response (post_validate (with_usage_insert false e) d apiKey scope service)
  = response (post_validate (with_usage_insert true e) d apiKey scope service) /\
  (forall k : string,
   apiKey = JStr k ->
   passes_input_validation apiKey scope service = true ->
   response (post_validate (with_usage_insert false e) d apiKey scope service)
   = render (verdict (now e) (answered_at e) scope service (matched k d)) /\
   code (response (post_validate (with_usage_insert false e) d apiKey scope service)) = 200 /\
   store (post_validate (with_usage_insert false e) d apiKey scope service) = d /\
   trace (post_validate (with_usage_insert false e) d apiKey scope service)
   = [Run SelectCandidates;
      Run (InsertUsage (option_map ApiKeys.id (matched k d)) "validate" "/validate"
             (req_ip e) (req_user_agent e)
             (usage_metadata service scope
                (result_name (verdict (now e) (answered_at e) scope service (matched k d)))));
      ConsoleError "Error logging usage:"]).
Proof.
  split.
  - unfold post_validate, internal_error, json, logUsage.
    cbn [with_usage_insert usage_insert_ok now answered_at req_ip req_user_agent store_timestamp].
    repeat match goal with
           | |- context [if ?b then _ else _] => destruct b
           | |- context [match scope_ok_validate ?s with _ => _ end] =>
               destruct (scope_ok_validate s) as [[|]|]
           | |- context [match find_key ?a ?l with _ => _ end] =>
               destruct (find_key a l) as [[?|]|]
           end; reflexivity.
  - intros k -> Hp.
    rewrite (post_validate_run (with_usage_insert false e) d k _ _ Hp).
    cbn [response store trace with_usage_insert now answered_at].
    unfold usage_call, logUsage.
    cbn [with_usage_insert usage_insert_ok now answered_at req_ip req_user_agent fst snd].
    repeat split. apply render_code.
Qed.

Lemma usage_failure_keeps_answer_witness :
  passes_input_validation (JStr "c0ffee") (JStr "orders:read") (JStr "svc") = true /\
  code (response (@post_validate demo_platform (with_usage_insert false demo_env)
                    demo_db (JStr "c0ffee") (JStr "orders:read") (JStr "svc"))) = 200.
Proof.
  split; [reflexivity|].
  exact (proj1 (proj2 (proj2 (@usage_failure_keeps_answer demo_platform demo_env demo_db
                                (JStr "c0ffee") (JStr "orders:read") (JStr "svc"))
                         "c0ffee" eq_refl eq_refl))).
Defined.

(** ** Soft-deleted keys and validation *)

Section Deleted.
Context {P : Platform}.

Lemma unique_ids_inj (d : db) (r r' : ApiKeys.row) :
  unique_ids d -> In r (api_keys d) -> In r' (api_keys d) ->
  ApiKeys.id r = ApiKeys.id r' -> r = r'.
Proof.
  unfold unique_ids. induction (api_keys d) as [|x rows IH]; [intros _ []|].
  cbn [map]. intros Hnd Hr Hr' Hid. apply NoDup_cons_iff in Hnd.
  destruct Hnd as [Hx Hnd]. destruct Hr as [<-|Hr], Hr' as [<-|Hr'].
  - reflexivity.
  - exfalso. apply Hx. rewrite Hid. now apply in_map.
  - exfalso. apply Hx. rewrite <- Hid. now apply in_map.
  - now apply IH.
Qed.

Lemma select_usage_ext (d d' : db) (id : string) :
  api_keys d' = api_keys d ->
  filter (usage_of id) (usage_records d') = filter (usage_of id) (usage_records d) ->
  select_usage d' id = select_usage d id.
Proof. unfold select_usage. now intros -> ->. Qed.

Lemma usage_response_ext (d d' : db) (id : string) :
  select_usage d' id = select_usage d id ->
  response (get_api_keys_id_usage d' id) = response (get_api_keys_id_usage d id).
Proof. unfold get_api_keys_id_usage, json. cbn [response]. now intros ->. Qed.

End Deleted.

(** C9: in a store with unique key ids, take a soft-deleted record and a
    secret that it verifies and that verifies no record of another id.  A
    validation call presenting that secret is answered invalid_key (whatever
    the status and expiration of the record), the one usage record it writes
    has a null apiKeyId, and the usage history of the deleted key's id (of
    every id, whatever the path segment that asks for it) is the same after
    the call as before. *)
Theorem deleted_key_validates_as_invalid {P : Platform} (e : env) (d : db)
    (r : ApiKeys.row) (k sc sv : string) :
  unique_ids d ->
  In r (api_keys d) ->
  ApiKeys.deleted_at r <> None ->
  verifies k r = true ->
  (forall r', In r' (api_keys d) -> verifies k r' = true ->
              ApiKeys.id r' = ApiKeys.id r) ->
  passes_input_validation (JStr k) (JStr sc) (JStr sv) = true ->
  response (post_validate e d (JStr k) (JStr sc) (JStr sv))
  = render (Denied invalid_key) /\
  usage_writes (trace (post_validate e d (JStr k) (JStr sc) (JStr sv)))
  = [InsertUsage None "validate" "/validate" (req_ip e) (req_user_agent e)
       (usage_metadata (JStr sv) (JStr sc) "invalid_key")] /\
  (forall u, In u (usage_records (store (post_validate e d (JStr k) (JStr sc) (JStr sv)))) ->
             In u (usage_records d) \/ UsageRecords.api_key_id u = None) /\
  (forall id : string,
   response (get_api_keys_id_usage
               (store (post_validate e d (JStr k) (JStr sc) (JStr sv))) id)
   = response (get_api_keys_id_usage d id)).
Proof.
  intros Hu Hr Hdel Hv Honly Hp.
  assert (Hm : matched k d = None).
  { apply matched_none. intros r' Hr' Hlive.
    destruct (verifies k r') eqn:Hv'; [|reflexivity].
    assert (r' = r) by (eapply unique_ids_inj; eauto).
    subst r'. contradiction. }
  rewrite (post_validate_run e d k _ _ Hp), Hm.
  cbn [response store trace verdict]. unfold usage_call, logUsage.
  cbn [option_map verdict result_name].
  split; [reflexivity|].
  destruct (usage_insert_ok e); cbn [fst snd usage_writes flat_map app];
    (split; [reflexivity|]); split.
  - intros u Hin. cbn [usage_records] in Hin. apply in_app_or in Hin.
    destruct Hin as [Hin|[<-|[]]]; [now left | now right].
  - intros id. apply usage_response_ext, select_usage_ext; [reflexivity|].
    cbn [usage_records]. rewrite filter_app. cbn [filter usage_of UsageRecords.api_key_id].
    apply app_nil_r.
  - auto.
  - reflexivity.
Qed.

Lemma deleted_key_validates_as_invalid_witness :
  response (@post_validate demo_platform demo_env (store demo_deleted)
              (JStr "c0ffee") (JStr "orders:read") (JStr "svc"))
  = render (Denied invalid_key).
Proof.
  refine (proj1 (@deleted_key_validates_as_invalid demo_platform demo_env
                   (store demo_deleted)
                   demo_deleted_row
                   "c0ffee" "orders:read" "svc" _ _ _ eq_refl _ eq_refl)).
  - vm_compute. repeat constructor. intros [].
  - vm_compute. left. reflexivity.
  - discriminate.
  - intros r' [<-|[]] _. reflexivity.
Defined.

(** ** Expiration values *)

Section Expiration.
Context {P : Platform}.






End Expiration.




(** ** Soft-deleted records: hidden, and still audited *)

Section Hidden.
Context {P : Platform}.

Lemma insert_desc_in {A : Type} (key : A -> string) (x y : A) (l : list A) :
  In y (insert_desc key x l) <-> y = x \/ In y l.
Proof.
  induction l as [|z l IH]; cbn [insert_desc].
  - cbn. intuition.
  - destruct (String.ltb (key x) (key z)); cbn [In]; [rewrite IH|]; intuition.
Qed.

(** ORDER BY returns the rows it is given. *)
Lemma order_by_desc_in {A : Type} (key : A -> string) (y : A) (l : list A) :
  In y (order_by_desc key l) <-> In y l.
Proof.
  unfold order_by_desc. induction l as [|x l IH]; cbn [fold_right]; [tauto|].
  rewrite insert_desc_in, IH. cbn [In]. intuition.
Qed.

Lemma not_live (r : ApiKeys.row) : ApiKeys.deleted_at r <> None -> live r = false.
Proof. unfold live. destruct (ApiKeys.deleted_at r); [reflexivity | congruence]. Qed.

Lemma candidates_are_live (d : db) (r : ApiKeys.row) :
  In r (select_candidates d) -> In r (api_keys d) /\ ApiKeys.deleted_at r = None.
Proof.
  unfold select_candidates. rewrite filter_In. intros [Hin Hl]. split; [exact Hin|].
  unfold live in Hl. now destruct (ApiKeys.deleted_at r).
Qed.

Lemma listing_is_live (d : db) (r : ApiKeys.row) :
  In r (select_listing d) -> In r (api_keys d) /\ ApiKeys.deleted_at r = None.
Proof.
  unfold select_listing. rewrite order_by_desc_in. apply candidates_are_live.
Qed.

Lemma render_allowed (dc : decision) (i : Z) (o : jsval) (sc : list string)
    (sv : jsval) (t : string) :
  render dc = render (Allowed i o sc sv t) ->
  exists o' sc' sv' t', dc = Allowed i o' sc' sv' t'.
Proof.
  destruct dc as [rs|i' o' sc' sv' t']; cbn [render]; intros H.
  - discriminate H.
  - injection H as Hi _. subst. eauto.
Qed.

Lemma verdict_allowed (current answered : Z) (scope service : jsval) (m : option ApiKeys.row)
    (i : Z) (o : jsval) (sc : list string) (sv : jsval) (t : string) :
  verdict current answered scope service m = Allowed i o sc sv t ->
  exists r, m = Some r /\ ApiKeys.id r = i.
Proof.
  destruct m as [r|]; cbn [verdict]; [|discriminate].
  destruct (negb _); [discriminate|].
  destruct (_ && _); [discriminate|].
  destruct (negb _); [discriminate|].
  intros [= <- _]. eauto.
Qed.

Lemma left_join_found (keys : list ApiKeys.row) (u : UsageRecords.row)
    (r : ApiKeys.row) :
  In r keys -> UsageRecords.api_key_id u = Some (ApiKeys.id r) ->
  In (u, Some r) (left_join keys u).
Proof.
  intros Hr Hu. unfold left_join. rewrite Hu.
  assert (Hin : In r (filter (fun ak => ApiKeys.id r =? ApiKeys.id ak) keys)).
  { apply filter_In. split; [exact Hr | apply Z.eqb_refl]. }
  destruct (filter _ keys) as [|x l]; [destruct Hin|].
  apply (in_map (fun ak => (u, Some ak))). exact Hin.
Qed.

(** A deleted record stays deleted, with its id, through every request. *)
Lemma deleted_stays (req : request) (d : db) (r : ApiKeys.row) :
  In r (api_keys d) -> ApiKeys.deleted_at r <> None ->
  exists r', In r' (api_keys (store (handle req d))) /\
             ApiKeys.id r' = ApiKeys.id r /\
             ApiKeys.deleted_at r' = ApiKeys.deleted_at r.
Proof.
  intros Hr Hdel. destruct req; cbn [handle].
  - destruct (post_api_keys_store e key salt d owner scopes expiration)
      as [->|(expiration_cell & owner_cell & _ & _ & _ & ->)].
    + eauto.
    + exists r. cbn [api_keys]. rewrite in_app_iff. auto.
  - eauto.
  - destruct (patch_store e d id status) as [->| ->]; [eauto|].
    eexists. split; [cbn [api_keys]; apply in_map; exact Hr|].
    cbv beta. now destruct (is_id _ _).
  - rewrite delete_store. exists r. cbn [api_keys]. split; [|auto].
    apply in_map_iff. exists r. split; [|exact Hr].
    unfold deletable. now rewrite (not_live r Hdel), andb_false_r.
  - exists r. now rewrite post_validate_keys.
  - eauto.
Qed.

(** Usage records are only ever appended. *)
Lemma usage_is_kept (req : request) (d : db) (u : UsageRecords.row) :
  In u (usage_records d) -> In u (usage_records (store (handle req d))).
Proof.
  intros Hu. destruct req; cbn [handle].
  - now destruct (post_api_keys_store e key salt d owner scopes expiration)
      as [->|(expiration_cell & owner_cell & _ & _ & _ & ->)].
  - exact Hu.
  - now destruct (patch_store e d id status) as [->| ->].
  - now rewrite delete_store.
  - destruct (post_validate_usage e d apiKey scope service) as [extra ->].
    apply in_app_iff. now left.
  - exact Hu.
Qed.

End Hidden.

(** C5: in a store with unique key ids, a record whose deletedAt is set has
    no entry in the listing, whose entries are the seven listed columns of
    live records of other ids; it is not among the candidates of the
    validation scan, so that no secret is matched to it and no validation
    answer allows its id; for every path segment that denotes its id, each
    usage record written under its id is among the records the usage query
    answers, with its seven columns and the owner, status and deletedAt of
    the record.  Every request keeps the ids unique, keeps the record
    deleted with the same deletedAt, and keeps every usage record: the same
    holds after it. *)
Theorem soft_deleted_hidden_but_audited {P : Platform} (d : db) (r : ApiKeys.row) :
  unique_ids d ->
  In r (api_keys d) ->
  ApiKeys.deleted_at r <> None ->
  (exists rows : list ApiKeys.row,
     body (response (get_api_keys d))
     = JArr (map (fun k =>
                    JObj [("id", JNum (ApiKeys.id k));
                          ("owner", ApiKeys.owner k);
                          ("scopes", JArr (map JStr (ApiKeys.scopes k)));
                          ("status", JStr (ApiKeys.status k));
                          ("expiration", ApiKeys.expiration k);
                          ("created_at", JStr (ApiKeys.created_at k));
                          ("updated_at", JStr (ApiKeys.updated_at k))]) rows) /\
     forall k, In k rows ->
               In k (api_keys d) /\ ApiKeys.deleted_at k = None /\
               ApiKeys.id k <> ApiKeys.id r) /\
  (forall entries entry,
     body (response (get_api_keys d)) = JArr entries ->
     In entry entries -> get entry "id" <> JNum (ApiKeys.id r)) /\
  (~ In r (select_candidates d) /\
   (forall k r', matched k d = Some r' -> ApiKeys.id r' <> ApiKeys.id r) /\
   (forall e k scope service o sc sv t,
      response (post_validate e d (JStr k) scope service)
      <> render (Allowed (ApiKeys.id r) o sc sv t))) /\
  (forall id : string,
   sqlite_integer id = Some (ApiKeys.id r) ->
   exists records : list jsval,
     get (body (response (get_api_keys_id_usage d id))) "records" = JArr records /\
     forall u, In u (usage_records d) ->
               UsageRecords.api_key_id u = Some (ApiKeys.id r) ->
               In (JObj [("id", JNum (UsageRecords.id u));
                         ("timestamp", JStr (UsageRecords.timestamp u));
                         ("action", JStr (UsageRecords.action u));
                         ("endpoint", JStr (UsageRecords.endpoint u));
                         ("ip", JStr (UsageRecords.ip u));
                         ("user_agent", UsageRecords.user_agent u);
                         ("metadata", UsageRecords.metadata u);
                         ("owner", ApiKeys.owner r);
                         ("status", JStr (ApiKeys.status r));
                         ("deleted_at", of_text (ApiKeys.deleted_at r))])
                  records) /\
  (forall req : request,
     unique_ids (store (handle req d)) /\
     (exists r', In r' (api_keys (store (handle req d))) /\
                 ApiKeys.id r' = ApiKeys.id r /\
                 ApiKeys.deleted_at r' = ApiKeys.deleted_at r) /\
     (forall u, In u (usage_records d) ->
                In u (usage_records (store (handle req d))))).
Proof.
  intros Hu Hr Hdel.
  assert (Hother : forall r', In r' (api_keys d) -> ApiKeys.deleted_at r' = None ->
                              ApiKeys.id r' <> ApiKeys.id r).
  { intros r' Hr' Hlive Hid.
    assert (r' = r) by (eapply unique_ids_inj; eauto). subst r'. contradiction. }
  assert (Hmatch : forall k r', matched k d = Some r' -> ApiKeys.id r' <> ApiKeys.id r).
  { intros k r' Hm. destruct (matched_in k d r' Hm) as (Hin & Hlive & _). auto. }
  split; [|split; [|split; [split; [|split]|split]]].
  - exists (select_listing d). split; [reflexivity|].
    intros k Hk. apply listing_is_live in Hk. destruct Hk as [Hk Hlive].
    repeat split; auto.
  - intros entries entry [= <-] Hin.
    apply in_map_iff in Hin. destruct Hin as (k & <- & Hk).
    apply listing_is_live in Hk. destruct Hk as [Hk Hlive].
    cbn. intros [= Hid]. exact (Hother k Hk Hlive Hid).
  - intros Hin. apply candidates_are_live in Hin. destruct Hin as [_ Hlive]. contradiction.
  - exact Hmatch.
  - intros e k scope service o sc sv t Heq.
    destruct (passes_input_validation (JStr k) scope service) eqn:Hp.
    + rewrite (post_validate_run e d k _ _ Hp) in Heq. cbn [response] in Heq.
      apply render_allowed in Heq. destruct Heq as (o' & sc' & sv' & t' & Hv).
      apply verdict_allowed in Hv. destruct Hv as (r' & Hm & Hid).
      exact (Hmatch k r' Hm Hid).
    + destruct (post_validate_rejected e d (JStr k) scope service Hp) as (_ & _ & Hin).
      rewrite Heq in Hin. cbn in Hin.
      destruct Hin as [H|[H|[H|[]]]]; discriminate H.
  - intros id Hid. exists (map usage_row (select_usage d id)).
    split; [reflexivity|].
    intros u Hin Hkey.
    change (In (usage_row (u, Some r)) (map usage_row (select_usage d id))).
    apply in_map. unfold select_usage.
    apply order_by_desc_in. apply in_flat_map. exists u. split.
    + apply filter_In. split; [exact Hin|]. unfold usage_of. rewrite Hkey.
      now apply is_id_true.
    + now apply left_join_found.
  - intros req. split; [now apply unique_ids_step|]. split.
    + now apply deleted_stays.
    + intros u. apply usage_is_kept.
Qed.

Lemma soft_deleted_hidden_but_audited_witness :
  exists records : list jsval,
    get (body (response (@get_api_keys_id_usage demo_platform
                           (store demo_used_deleted) "1"))) "records"
    = JArr records /\
    In (JObj [("id", JNum 1);
              ("timestamp", JStr "2025-06-15 15:06:40");
              ("action", JStr "validate");
              ("endpoint", JStr "/validate");
              ("ip", JStr "127.0.0.1");
              ("user_agent", JStr "curl/8.0");
              ("metadata", JObj [("service", JStr "svc");
                                 ("scope", JStr "orders:read");
                                 ("result", JStr "allowed")]);
              ("owner", JStr "test-user");
              ("status", JStr "active");
              ("deleted_at", JStr "2025-06-15T15:06:40.000Z")])
       records.
Proof.
  assert (Hu : unique_ids (store demo_used_deleted)).
  { vm_compute. repeat constructor. intros []. }
  assert (Hr : In demo_deleted_row (api_keys (store demo_used_deleted))).
  { vm_compute. left. reflexivity. }
  assert (Hdel : ApiKeys.deleted_at demo_deleted_row <> None) by discriminate.
  destruct (proj1 (proj2 (proj2 (proj2
              (@soft_deleted_hidden_but_audited demo_platform
                 (store demo_used_deleted) demo_deleted_row Hu Hr Hdel))))
              "1" eq_refl) as (records & Hrec & Hin).
  exists records. split; [exact Hrec|].
  refine (Hin demo_usage_row _ eq_refl).
  vm_compute. left. reflexivity.
Defined.

(** ** Secrets: what the answers can depend on *)

Section Related.
Context {A B : Type} (R : A -> B -> Prop).






End Related.





Section Blind.
Context {P : Platform}.









End Blind.

Section Answers.
Context {P : Platform}.










End Answers.



(** * Further properties of the handlers *)

(** ** Composing the handlers *)

Section Composition.
Context {P : Platform}.

Lemma string_truthy (s : string) : s <> "" -> truthy (JStr s) = true.
Proof. intros Hs. cbn [truthy]. now apply negb_true_iff, String.eqb_neq. Qed.

Lemma includes_nonempty (s : string) : includes s ":" = true -> s <> "".
Proof. intros H ->. discriminate H. Qed.

Lemma passes_strings (k sc sv : string) :
  k <> "" -> sv <> "" -> includes sc ":" = true ->
  passes_input_validation (JStr k) (JStr sc) (JStr sv) = true.
Proof.
  intros Hk Hv Hs. unfold passes_input_validation.
  rewrite (string_truthy k Hk), (string_truthy sv Hv),
    (string_truthy sc (includes_nonempty sc Hs)).
  cbn. exact Hs.
Qed.

(** The scan over a table with one more row at its end. *)
Lemma matched_after_insert (k : string) (d : db) (r : ApiKeys.row) :
  matched k (mkDb (api_keys d ++ [r]) (usage_records d)) =
  match matched k d with
  | Some x => Some x
  | None => if live r && verifies k r then Some r else None
  end.
Proof.
  unfold matched, select_candidates. cbn [api_keys]. rewrite filter_app.
  induction (filter live (api_keys d)) as [|x l IH]; cbn [app List.find filter].
  - destruct (live r); cbn [List.find andb]; [|reflexivity].
    now destruct (verifies k r).
  - destruct (verifies k x); [reflexivity | exact IH].
Qed.

Lemma scope_among_strings (items : list jsval) (sc : string) :
  In (JStr sc) items -> In sc (strings_of (JArr items)).
Proof.
  intros H. cbn [strings_of]. apply in_flat_map. exists (JStr sc).
  split; [exact H | now left].
Qed.

Lemma scope_of_ok_array (items : list jsval) (sc : string) :
  scopes_ok (JArr items) = true -> In (JStr sc) items -> includes sc ":" = true.
Proof.
  cbn [scopes_ok]. rewrite forallb_forall. intros H Hin. exact (H _ Hin).
Qed.

(** The scan after an UPDATE that keeps verifiers, salts and liveness. *)
Lemma matched_after_update (k : string) (f : ApiKeys.row -> ApiKeys.row)
    (rows : list ApiKeys.row) :
  (forall x, verifies k (f x) = verifies k x) ->
  (forall x, live (f x) = live x) ->
  List.find (verifies k) (filter live (map f rows))
  = option_map f (List.find (verifies k) (filter live rows)).
Proof.
  intros Hv Hl. induction rows as [|x rows IH]; [reflexivity|].
  cbn [map filter]. rewrite Hl. destruct (live x); [|exact IH].
  cbn [List.find]. rewrite Hv. now destruct (verifies k x).
Qed.

(** The scan after an UPDATE that spares the matched row, revives no row
    and keeps verifiers and salts. *)
Lemma matched_spared (k : string) (f : ApiKeys.row -> ApiKeys.row)
    (rows : list ApiKeys.row) (r : ApiKeys.row) :
  (forall x, verifies k (f x) = verifies k x) ->
  (forall x, live (f x) = true -> live x = true) ->
  f r = r ->
  List.find (verifies k) (filter live rows) = Some r ->
  List.find (verifies k) (filter live (map f rows)) = Some r.
Proof.
  intros Hv Hl Hr. induction rows as [|x rows IH]; [discriminate|].
  cbn [map filter]. destruct (live x) eqn:Hx.
  - cbn [List.find]. destruct (verifies k x) eqn:Hvx.
    + intros [= ->]. rewrite Hr, Hx. cbn [List.find]. now rewrite Hvx.
    + intros H. destruct (live (f x)); [|now apply IH].
      cbn [List.find]. rewrite Hv, Hvx. now apply IH.
  - intros H. destruct (live (f x)) eqn:Hfx; [|now apply IH].
    rewrite (Hl x Hfx) in Hx. discriminate.
Qed.

Lemma rejected_whatever_the_store (e : env) (d d' : db) (apiKey scope service : jsval) :
  passes_input_validation apiKey scope service = false ->
  response (post_validate e d apiKey scope service)
  = response (post_validate e d' apiKey scope service).
Proof.
  unfold passes_input_validation, post_validate. intros Hp.
  destruct (truthy apiKey), (truthy scope), (truthy service);
    cbn [negb orb andb] in *; try reflexivity.
  destruct (scope_ok_validate scope) as [[|]|]; [discriminate | reflexivity..].
Qed.

End Composition.

(** A key that was just issued validates: when the store held no live
    record that the drawn key verifies, the store binds the owner and the
    expiration given, and the expiration it keeps is absent or not in the
    past, a validation call presenting the key for one of the scopes it was
    issued with is allowed, and names the id and scopes of the creation
    answer and the owner as the store keeps it (the owner of the creation
    answer when that is a string). *)
Theorem issued_key_validates {P : Platform} (e e' : env) (key salt : string)
    (d : db) (owner expiration owner_cell expiration_cell : jsval)
    (items : list jsval) (sc sv : string) :
  truthy owner = true ->
  scopes_ok (JArr items) = true ->
  In (JStr sc) items ->
  key <> "" -> sv <> "" ->
  matched key d = None ->
  bind_text owner = Normal owner_cell ->
  bind_text (or_else expiration JNull) = Normal expiration_cell ->
  truthy expiration_cell
  && date_lt (new_Date expiration_cell) (Some (now e')) = false ->
  response (post_api_keys e key salt d owner (JArr items) expiration)
  = mkResponse 201
      (JObj [("id", JNum (fresh_id (map ApiKeys.id (api_keys d))));
             ("key", JStr key); ("owner", owner); ("scopes", JArr items);
             ("expiration", or_else expiration JNull);
             ("status", JStr "active");
             ("created_at", JStr (toISOString (now e)))]) /\
  response (post_validate e'
              (store (post_api_keys e key salt d owner (JArr items) expiration))
              (JStr key) (JStr sc) (JStr sv))
  = render (Allowed (fresh_id (map ApiKeys.id (api_keys d))) owner_cell
              (strings_of (JArr items)) (JStr sv) (toISOString (answered_at e'))) /\
  (forall o : string, owner = JStr o -> owner_cell = owner).
Proof.
  intros Ho Hs Hin Hk Hv Hm Hbo Hbe Hx.
  pose proof (scope_of_ok_array items sc Hs Hin) as Hsc.
  unfold post_api_keys. rewrite Ho, Hs, Hbo, Hbe. cbn [negb json response store].
  split; [reflexivity|]. split.
  - rewrite (post_validate_run e' _ key _ _ (passes_strings key sc sv Hk Hv Hsc)).
    cbn [response]. rewrite matched_after_insert, Hm.
    unfold verifies at 1, live at 1. cbn [ApiKeys.deleted_at ApiKeys.key_hash ApiKeys.salt andb].
    rewrite String.eqb_refl. cbn [verdict ApiKeys.status ApiKeys.expiration
      ApiKeys.scopes ApiKeys.id ApiKeys.owner String.eqb negb].
    replace (("active" =? "active")%string) with true by reflexivity. cbn [negb].
    rewrite Hx.
    now rewrite (proj2 (array_includes_in _ _) (scope_among_strings items sc Hin)).
  - intros o ->. cbn [bind_text] in Hbo. congruence.
Qed.

Lemma issued_key_validates_witness :
  get (body (response
        (@post_validate demo_platform demo_env demo_db
           (JStr "c0ffee") (JStr "orders:read") (JStr "svc")))) "allowed"
  = JBool true.
Proof.
  assert (H := proj1 (proj2 (@issued_key_validates demo_platform early_env demo_env
                        "c0ffee" "5a17" empty_db (JStr "test-user") JUndefined
                        (JStr "test-user") JNull
                        [JStr "orders:read"] "orders:read" "svc"
                        eq_refl eq_refl (or_introl eq_refl)
                        ltac:(discriminate) ltac:(discriminate) eq_refl
                        eq_refl eq_refl eq_refl))).
  change (store (@post_api_keys demo_platform early_env "c0ffee" "5a17" empty_db
                   (JStr "test-user") (JArr [JStr "orders:read"]) JUndefined))
    with demo_db in H.
  rewrite H. reflexivity.
Defined.

Section AfterRevoke.
Context {P : Platform}.

Lemma set_status_verifies (k st now_ : string) (x : ApiKeys.row) :
  verifies k (set_status st now_ x) = verifies k x.
Proof. reflexivity. Qed.

Lemma patch_rows (e : env) (d : db) (id : string) :
  api_keys (store (patch_api_keys_id e d id (JStr "revoked"))) =
  map (fun k => if is_id id (ApiKeys.id k)
                then set_status "revoked" (toISOString (now e)) k else k)
    (api_keys d).
Proof.
  rewrite patch_revoked. cbv zeta. destruct (snd _ =? 0); reflexivity.
Qed.

Lemma matched_after_revoke (e : env) (d : db) (k : string) (r : ApiKeys.row)
    (id : string) :
  sqlite_integer id = Some (ApiKeys.id r) ->
  matched k d = Some r ->
  matched k (store (patch_api_keys_id e d id (JStr "revoked")))
  = Some (set_status "revoked" (toISOString (now e)) r).
Proof.
  intros Hid Hm. unfold matched, select_candidates in *. rewrite patch_rows.
  rewrite matched_after_update, Hm.
  - cbn [option_map]. now rewrite (proj2 (is_id_true id (ApiKeys.id r)) Hid).
  - intros x. now destruct (is_id _ _).
  - intros x. now destruct (is_id _ _).
Qed.

End AfterRevoke.

(** Revocation takes effect at once and for every scope: once the record
    that a secret matches has been revoked, through a path segment that
    denotes its id, every validation call presenting that secret that passes
    the guards is denied as revoked, whatever scope and service it names,
    and its usage record carries the key's id. *)
Theorem revoked_key_is_denied {P : Platform} (e e' : env) (d : db) (k : string)
    (r : ApiKeys.row) (id : string) (scope service : jsval) :
  matched k d = Some r ->
  sqlite_integer id = Some (ApiKeys.id r) ->
  passes_input_validation (JStr k) scope service = true ->
  code (response (patch_api_keys_id e d id (JStr "revoked"))) = 200 /\
  response (post_validate e'
              (store (patch_api_keys_id e d id (JStr "revoked")))
              (JStr k) scope service)
  = render (Denied revoked) /\
  usage_writes (trace (post_validate e'
              (store (patch_api_keys_id e d id (JStr "revoked")))
              (JStr k) scope service))
  = [InsertUsage (Some (ApiKeys.id r)) "validate" "/validate" (req_ip e')
       (req_user_agent e') (usage_metadata service scope "revoked")].
Proof.
  intros Hm Hid Hp. destruct (matched_in k d r Hm) as (Hin & _ & _). split.
  - rewrite patch_revoked. cbv zeta. destruct (snd _ =? 0) eqn:Hc; [|reflexivity].
    apply Z.eqb_eq in Hc.
    pose proof (proj1 (sql_update_no_change _ _ _) Hc r Hin) as Hw.
    cbv beta in Hw. rewrite (proj2 (is_id_true id (ApiKeys.id r)) Hid) in Hw.
    discriminate.
  - rewrite (post_validate_run e' _ k _ _ Hp), (matched_after_revoke e d k r id Hid Hm).
    cbn [response trace verdict set_status ApiKeys.status ApiKeys.id].
    replace (("revoked" =? "active")%string) with false by reflexivity.
    cbn [negb]. split; [reflexivity|].
    unfold usage_call, logUsage.
    cbn [verdict set_status ApiKeys.status ApiKeys.id option_map].
    replace (("revoked" =? "active")%string) with false by reflexivity.
    cbn [negb result_name]. now destruct (usage_insert_ok e').
Qed.

Lemma revoked_key_is_denied_witness :
  response (@post_validate demo_platform demo_env
              (store (@patch_api_keys_id demo_platform demo_env demo_db "1" (JStr "revoked")))
              (JStr "c0ffee") (JStr "orders:read") (JStr "svc"))
  = render (Denied revoked).
Proof.
  exact (proj1 (proj2 (@revoked_key_is_denied demo_platform demo_env demo_env demo_db
                         "c0ffee"
                         (ApiKeys.mk 1 "5a17$c0ffee" "5a17" "active" JNull
                            "2025-01-01T00:00:00.000Z" "2025-01-01T00:00:00.000Z"
                            ["orders:read"] (JStr "test-user") None)
                         "1" (JStr "orders:read") (JStr "svc")
                         eq_refl eq_refl eq_refl))).
Defined.

(** Revoking or soft-deleting one key leaves the validation of every other
    key as it was: when a secret matches a record of another id than the one
    the path segment denotes, the answer to a validation call presenting it
    is the same before and after the PATCH or DELETE, for every scope and
    service. *)
Theorem other_keys_are_unaffected {P : Platform} (e e' : env) (d : db)
    (k : string) (r : ApiKeys.row) (id : string) (status scope service : jsval) :
  matched k d = Some r ->
  sqlite_integer id <> Some (ApiKeys.id r) ->
  response (post_validate e' (store (patch_api_keys_id e d id status))
              (JStr k) scope service)
  = response (post_validate e' d (JStr k) scope service) /\
  response (post_validate e' (store (delete_api_keys_id e d id))
              (JStr k) scope service)
  = response (post_validate e' d (JStr k) scope service).
Proof.
  intros Hm Hid.
  assert (Hne : is_id id (ApiKeys.id r) = false).
  { destruct (is_id id (ApiKeys.id r)) eqn:Hi; [|reflexivity].
    apply is_id_true in Hi. contradiction. }
  assert (Hsame : forall d', matched k d' = Some r ->
            response (post_validate e' d' (JStr k) scope service)
            = response (post_validate e' d (JStr k) scope service)).
  { intros d' Hm'.
    destruct (passes_input_validation (JStr k) scope service) eqn:Hp.
    - rewrite !(post_validate_run e' _ k _ _ Hp). cbn [response].
      now rewrite Hm, Hm'.
    - now apply rejected_whatever_the_store. }
  split; apply Hsame.
  - destruct (patch_store e d id status) as [->| ->]; [exact Hm|].
    unfold matched, select_candidates in *. cbn [api_keys].
    apply matched_spared; try assumption.
    + intros x. now destruct (is_id id (ApiKeys.id x)).
    + intros x. now destruct (is_id id (ApiKeys.id x)).
    + now rewrite Hne.
  - rewrite delete_store. unfold matched, select_candidates in *. cbn [api_keys].
    apply matched_spared; try assumption.
    + intros x. now destruct (deletable id x).
    + intros x. destruct (deletable id x); [discriminate | auto].
    + unfold deletable. now rewrite Hne.
Qed.

Lemma other_keys_are_unaffected_witness :
  response (@post_validate demo_platform demo_env
              (store (@delete_api_keys_id demo_platform demo_env demo_db "2"))
              (JStr "c0ffee") (JStr "orders:read") (JStr "svc"))
  = response (@post_validate demo_platform demo_env demo_db
                (JStr "c0ffee") (JStr "orders:read") (JStr "svc")).
Proof.
  exact (proj2 (@other_keys_are_unaffected demo_platform demo_env demo_env demo_db
                  "c0ffee"
                  (ApiKeys.mk 1 "5a17$c0ffee" "5a17" "active" JNull
                     "2025-01-01T00:00:00.000Z" "2025-01-01T00:00:00.000Z"
                     ["orders:read"] (JStr "test-user") None)
                  "2" (JStr "revoked") (JStr "orders:read") (JStr "svc")
                  eq_refl ltac:(discriminate))).
Defined.

(** ** What no request does to the tables *)

Section Tables.
Context {P : Platform}.

Lemma logUsage_appends (e : env) (d : db) a i u m :
  exists extra,
    usage_records (fst (logUsage e d a "validate" "/validate" i u m))
    = (usage_records d ++ extra)%list /\
    (List.length extra <= 1)%nat /\
    forall r, In r extra ->
      UsageRecords.id r = fresh_id (map UsageRecords.id (usage_records d)) /\
      UsageRecords.api_key_id r = a /\
      UsageRecords.action r = "validate" /\
      UsageRecords.endpoint r = "/validate".
Proof.
  unfold logUsage. destruct (usage_insert_ok e); cbn [fst usage_records].
  - eexists. split; [reflexivity|]. split; [cbn; lia|].
    intros r [<-|[]]. now repeat split.
  - exists []. rewrite app_nil_r. split; [reflexivity|]. split; [cbn; lia|].
    intros r [].
Qed.

Ltac handler_cases :=
  unfold post_validate, internal_error, json;
  repeat match goal with
         | |- context [if ?b then _ else _] => destruct b
         | |- context [match scope_ok_validate ?s with _ => _ end] =>
             destruct (scope_ok_validate s) as [[|]|]
         | |- context [match find_key ?a ?l with _ => _ end] =>
             destruct (find_key a l) as [[?|]|]
         | |- context [let '(_, _) := ?p in _] =>
             let E := fresh "E" in destruct p eqn:E
         end.

Lemma post_validate_appends (e : env) (d : db) (apiKey scope service : jsval) :
  exists extra,
    usage_records (store (post_validate e d apiKey scope service))
    = (usage_records d ++ extra)%list /\
    (List.length extra <= 1)%nat /\
    forall r, In r extra ->
      UsageRecords.id r = fresh_id (map UsageRecords.id (usage_records d)) /\
      UsageRecords.action r = "validate" /\
      UsageRecords.endpoint r = "/validate".
Proof.
  handler_cases; cbn [store];
    try (exists []; rewrite app_nil_r; split; [reflexivity|];
         split; [cbn; lia | intros r []]);
    match goal with
    | E : logUsage _ _ ?a _ _ ?i ?u ?m = (?d', _) |- _ =>
        pose proof (f_equal fst E) as E'; cbn [fst] in E'; rewrite <- E';
        destruct (logUsage_appends e d a i u m) as (extra & H1 & H2 & H3);
        exists extra; split; [exact H1|]; split; [exact H2|];
        intros row Hrow; destruct (H3 row Hrow) as (? & ? & ? & ?); auto
    end.
Qed.

End Tables.

(** No request removes, reorders or rewrites a key record: after any
    request the key table is the old one, row by row, with at most one row
    appended, and for every old row the id, verifier, salt, expiration,
    creation time, scopes and owner are what they were; the status is what
    it was or revoked; deletedAt is what it was unless it was unset. *)
Theorem key_rows_are_kept {P : Platform} (req : request) (d : db) :
  exists (g : ApiKeys.row -> ApiKeys.row) (extra : list ApiKeys.row),
    api_keys (store (handle req d)) = (map g (api_keys d) ++ extra)%list /\
    (List.length extra <= 1)%nat /\
    forall k : ApiKeys.row,
      ApiKeys.id (g k) = ApiKeys.id k /\
      ApiKeys.key_hash (g k) = ApiKeys.key_hash k /\
      ApiKeys.salt (g k) = ApiKeys.salt k /\
      ApiKeys.expiration (g k) = ApiKeys.expiration k /\
      ApiKeys.created_at (g k) = ApiKeys.created_at k /\
      ApiKeys.scopes (g k) = ApiKeys.scopes k /\
      ApiKeys.owner (g k) = ApiKeys.owner k /\
      (ApiKeys.status (g k) = ApiKeys.status k \/ ApiKeys.status (g k) = "revoked") /\
      (ApiKeys.deleted_at (g k) = ApiKeys.deleted_at k \/ ApiKeys.deleted_at k = None).
Proof.
  assert (Hsame : forall rows : list ApiKeys.row,
            exists (g : ApiKeys.row -> ApiKeys.row) (extra : list ApiKeys.row),
              rows = (map g rows ++ extra)%list /\ (List.length extra <= 1)%nat /\
              forall k : ApiKeys.row,
                ApiKeys.id (g k) = ApiKeys.id k /\
                ApiKeys.key_hash (g k) = ApiKeys.key_hash k /\
                ApiKeys.salt (g k) = ApiKeys.salt k /\
                ApiKeys.expiration (g k) = ApiKeys.expiration k /\
                ApiKeys.created_at (g k) = ApiKeys.created_at k /\
                ApiKeys.scopes (g k) = ApiKeys.scopes k /\
                ApiKeys.owner (g k) = ApiKeys.owner k /\
                (ApiKeys.status (g k) = ApiKeys.status k \/ ApiKeys.status (g k) = "revoked") /\
                (ApiKeys.deleted_at (g k) = ApiKeys.deleted_at k \/ ApiKeys.deleted_at k = None)).
  { intros rows. exists (fun k => k), []. rewrite map_id, app_nil_r.
    split; [reflexivity|]. split; [cbn; lia|]. intros k. repeat split; auto. }
  destruct req; cbn [handle].
  - destruct (post_api_keys_store e key salt d owner scopes expiration)
      as [->|(expiration_cell & owner_cell & _ & _ & _ & ->)]; [apply Hsame|].
    eexists (fun k => k), _. cbn [api_keys]. rewrite map_id.
    split; [reflexivity|]. split; [cbn; lia|]. intros k. repeat split; auto.
  - apply Hsame.
  - destruct (patch_store e d id status) as [->| ->]; [apply Hsame|].
    eexists _, []. cbn [api_keys]. rewrite app_nil_r.
    split; [reflexivity|]. split; [cbn; lia|].
    intros k. destruct (is_id id (ApiKeys.id k)); cbn; repeat split; auto.
  - rewrite delete_store. eexists _, []. cbn [api_keys]. rewrite app_nil_r.
    split; [reflexivity|]. split; [cbn; lia|].
    intros k. unfold deletable, live.
    destruct (is_id id (ApiKeys.id k)); cbn [andb]; [|repeat split; auto].
    destruct (ApiKeys.deleted_at k) eqn:Hd; cbn; rewrite ?Hd; repeat split; auto.
  - rewrite post_validate_keys. apply Hsame.
  - apply Hsame.
Qed.

(** Usage records are append-only, and only a validation writes one: after
    any request the usage table is the old one followed by at most one row;
    a request other than a validation adds none; an added row has the next
    id of the table and is a [validate] on [/validate]. *)
Theorem usage_records_are_append_only {P : Platform} (req : request) (d : db) :
  exists extra : list UsageRecords.row,
    usage_records (store (handle req d)) = (usage_records d ++ extra)%list /\
    (List.length extra <= 1)%nat /\
    (is_validation req = false -> extra = []) /\
    forall r, In r extra ->
      UsageRecords.id r = fresh_id (map UsageRecords.id (usage_records d)) /\
      UsageRecords.action r = "validate" /\
      UsageRecords.endpoint r = "/validate".
Proof.
  assert (Hnone : forall d', usage_records d' = usage_records d ->
            exists extra : list UsageRecords.row,
              usage_records d' = (usage_records d ++ extra)%list /\
              (List.length extra <= 1)%nat /\
              (is_validation req = false -> extra = []) /\
              forall r, In r extra ->
                UsageRecords.id r = fresh_id (map UsageRecords.id (usage_records d)) /\
                UsageRecords.action r = "validate" /\
                UsageRecords.endpoint r = "/validate").
  { intros d' ->. exists []. rewrite app_nil_r. split; [reflexivity|].
    split; [cbn; lia|]. split; [reflexivity | intros r []]. }
  destruct req; cbn [handle].
  - apply Hnone.
    now destruct (post_api_keys_store e key salt d owner scopes expiration)
      as [->|(expiration_cell & owner_cell & _ & _ & _ & ->)].
  - now apply Hnone.
  - apply Hnone. now destruct (patch_store e d id status) as [->| ->].
  - apply Hnone. now rewrite delete_store.
  - destruct (post_validate_appends e d apiKey scope service) as (extra & H1 & H2 & H3).
    exists extra. split; [exact H1|]. split; [exact H2|].
    split; [discriminate | exact H3].
  - now apply Hnone.
Qed.

Lemma usage_records_are_append_only_witness :
  usage_records (store (@handle demo_platform (DeleteApiKeysId demo_env "1") (store demo_used)))
  = usage_records (store demo_used).
Proof.
  destruct (@usage_records_are_append_only demo_platform (DeleteApiKeysId demo_env "1")
              (store demo_used)) as (extra & H1 & _ & H3 & _).
  rewrite H1, (H3 eq_refl). apply app_nil_r.
Defined.

(** Revoking again is accepted, and two revocations amount to the later
    one: for a path segment that denotes an id that has a record, a second
    PATCH answers 200 like the first, and the store after both is the store
    after the second alone. *)
Theorem revoke_twice_is_revoke_once {P : Platform} (e1 e2 : env) (d : db)
    (id : string) (i : Z) :
  sqlite_integer id = Some i ->
  In i (map ApiKeys.id (api_keys d)) ->
  code (response (patch_api_keys_id e1 d id (JStr "revoked"))) = 200 /\
  code (response (patch_api_keys_id e2
                    (store (patch_api_keys_id e1 d id (JStr "revoked")))
                    id (JStr "revoked"))) = 200 /\
  store (patch_api_keys_id e2
           (store (patch_api_keys_id e1 d id (JStr "revoked"))) id (JStr "revoked"))
  = store (patch_api_keys_id e2 d id (JStr "revoked")).
Proof.
  intros Hi Hin. apply in_map_iff in Hin. destruct Hin as (r & Hid & Hr).
  assert (Hcode : forall e0 d0, In i (map ApiKeys.id (api_keys d0)) ->
            code (response (patch_api_keys_id e0 d0 id (JStr "revoked"))) = 200).
  { intros e0 d0 Hin0. apply in_map_iff in Hin0. destruct Hin0 as (r0 & Hid0 & Hr0).
    rewrite patch_revoked. cbv zeta. destruct (snd _ =? 0) eqn:Hc; [|reflexivity].
    apply Z.eqb_eq in Hc.
    pose proof (proj1 (sql_update_no_change _ _ _) Hc r0 Hr0) as Hw.
    cbv beta in Hw. rewrite (is_id_of id i _ Hi), Hid0, Z.eqb_refl in Hw.
    discriminate. }
  assert (Hstore : forall e0 d0,
            store (patch_api_keys_id e0 d0 id (JStr "revoked"))
            = mkDb (map (fun k => if is_id id (ApiKeys.id k)
                                  then set_status "revoked" (toISOString (now e0)) k
                                  else k) (api_keys d0))
                   (usage_records d0)).
  { intros e0 d0. rewrite patch_revoked. cbv zeta. now destruct (snd _ =? 0). }
  split; [apply Hcode, in_map_iff; eauto|]. split.
  - apply Hcode. rewrite Hstore. cbn [api_keys]. rewrite map_id_conditional; [|reflexivity].
    apply in_map_iff; eauto.
  - rewrite !Hstore. cbn [api_keys usage_records]. f_equal.
    rewrite map_map. apply map_ext. intros k.
    destruct (is_id id (ApiKeys.id k)) eqn:Hk.
    + cbn [set_status ApiKeys.id]. now rewrite Hk.
    + now rewrite Hk.
Qed.

Lemma revoke_twice_is_revoke_once_witness :
  code (response (@patch_api_keys_id demo_platform demo_env
                    (store (@patch_api_keys_id demo_platform early_env demo_db "1" (JStr "revoked")))
                    "1" (JStr "revoked"))) = 200.
Proof.
  exact (proj1 (proj2 (@revoke_twice_is_revoke_once demo_platform early_env demo_env
                         demo_db "1" 1 eq_refl (or_introl eq_refl)))).
Defined.

(** ** Listing *)

Section Listing.
Context {A : Type} (key : A -> string).

Lemma ltb_asym (a b : string) : String.ltb a b = true -> String.ltb b a = false.
Proof.
  unfold String.ltb. rewrite (String.compare_antisym b a).
  now destruct (String.compare a b).
Qed.

Lemma insert_desc_head (x y : A) (l : list A) :
  not_older key y x -> HdRel (not_older key) y l -> HdRel (not_older key) y (insert_desc key x l).
Proof.
  intros Hyx Hl. destruct l as [|z l]; cbn [insert_desc]; [now constructor|].
  destruct (String.ltb (key x) (key z)); constructor; [|exact Hyx].
  now inversion Hl.
Qed.

Lemma insert_desc_sorted (x : A) (l : list A) :
  Sorted (not_older key) l -> Sorted (not_older key) (insert_desc key x l).
Proof.
  induction 1 as [|y l Hs IH Hh]; cbn [insert_desc].
  - repeat constructor.
  - destruct (String.ltb (key x) (key y)) eqn:Hxy.
    + constructor; [exact IH|]. apply insert_desc_head; [|exact Hh].
      now apply ltb_asym.
    + constructor; [now constructor|]. constructor. exact Hxy.
Qed.

Lemma order_by_desc_sorted (l : list A) : Sorted (not_older key) (order_by_desc key l).
Proof.
  unfold order_by_desc. induction l as [|x l IH]; cbn [fold_right];
    [constructor | now apply insert_desc_sorted].
Qed.

Lemma insert_desc_perm (x : A) (l : list A) :
  Permutation (insert_desc key x l) (x :: l).
Proof.
  induction l as [|y l IH]; cbn [insert_desc]; [reflexivity|].
  destruct (String.ltb (key x) (key y)); [|reflexivity].
  rewrite IH. apply perm_swap.
Qed.

Lemma order_by_desc_perm (l : list A) : Permutation (order_by_desc key l) l.
Proof.
  unfold order_by_desc. induction l as [|x l IH]; cbn [fold_right]; [reflexivity|].
  rewrite insert_desc_perm. now constructor.
Qed.

Lemma order_by_desc_length (l : list A) :
  List.length (order_by_desc key l) = List.length l.
Proof. apply Permutation_length, order_by_desc_perm. Qed.

End Listing.

(** The listing holds every record that is not soft-deleted, each once, and
    no other, newest first: along the answer no entry has a smaller
    created_at than the entry after it.  The store is left as it was. *)
Theorem listing_is_newest_first (d : db) :
  body (response (get_api_keys d)) = JArr (map listing_row (select_listing d)) /\
  code (response (get_api_keys d)) = 200 /\
  store (get_api_keys d) = d /\
  Permutation (select_listing d) (filter live (api_keys d)) /\
  Sorted (fun a b => String.ltb (ApiKeys.created_at a) (ApiKeys.created_at b) = false)
    (select_listing d).
Proof.
  repeat split.
  - apply order_by_desc_perm.
  - apply (order_by_desc_sorted ApiKeys.created_at).
Qed.

(** ** The usage query *)

Section UsageQuery.
Context {P : Platform}.

Lemma at_most_one_row_of_id (keys : list ApiKeys.row) (i : Z) :
  NoDup (map ApiKeys.id keys) ->
  (List.length (filter (fun ak => (i =? ApiKeys.id ak)%Z) keys) <= 1)%nat.
Proof.
  induction keys as [|x keys IH]; cbn [map filter]; [cbn; lia|].
  intros Hnd. apply NoDup_cons_iff in Hnd. destruct Hnd as [Hx Hnd].
  destruct (i =? ApiKeys.id x) eqn:Hi; [|now apply IH].
  apply Z.eqb_eq in Hi. subst i. cbn [List.length].
  assert (Hnone : filter (fun ak => ApiKeys.id x =? ApiKeys.id ak) keys = []).
  { destruct (filter _ keys) as [|y l] eqn:Hf; [reflexivity|].
    assert (Hy : In y (filter (fun ak => ApiKeys.id x =? ApiKeys.id ak) keys))
      by (rewrite Hf; now left).
    apply filter_In in Hy. destruct Hy as [Hy He]. apply Z.eqb_eq in He.
    exfalso. apply Hx. rewrite He. now apply in_map. }
  rewrite Hnone. cbn. lia.
Qed.

(** With [id] a key, the join yields one row per usage record. *)
Lemma left_join_one (keys : list ApiKeys.row) (u : UsageRecords.row) :
  NoDup (map ApiKeys.id keys) -> List.length (left_join keys u) = 1%nat.
Proof.
  intros Hnd. unfold left_join.
  destruct (UsageRecords.api_key_id u) as [i|].
  - pose proof (at_most_one_row_of_id keys i Hnd) as Hle.
    destruct (filter _ keys) as [|x [|y l]]; cbn in *; [reflexivity | reflexivity | lia].
  - assert (Hnone : filter (fun _ : ApiKeys.row => false) keys = []).
    { induction keys; [reflexivity | cbn; auto].
      apply IHkeys. cbn [map] in Hnd. now apply NoDup_cons_iff in Hnd. }
    now rewrite Hnone.
Qed.

Lemma flat_map_length_one {A B : Type} (f : A -> list B) (l : list A) :
  (forall a, List.length (f a) = 1%nat) ->
  List.length (flat_map f l) = List.length l.
Proof.
  intros Hf. induction l as [|a l IH]; [reflexivity|].
  cbn [flat_map]. rewrite length_app, Hf, IH. reflexivity.
Qed.

Lemma select_usage_length (d : db) (id : string) :
  unique_ids d ->
  List.length (select_usage d id)
  = List.length (filter (usage_of id) (usage_records d)).
Proof.
  intros Hu. unfold select_usage. rewrite order_by_desc_length.
  apply flat_map_length_one. intros u. now apply left_join_one.
Qed.

Lemma total_requests (d : db) (id : string) :
  get (body (response (get_api_keys_id_usage d id))) "totalRequests"
  = JNum (Z.of_nat (List.length (select_usage d id))).
Proof.
  unfold get_api_keys_id_usage, json. cbn [response body get assoc].
  cbn. now rewrite length_map.
Qed.

Lemma usage_of_unfold (id : string) (u : UsageRecords.row) :
  usage_of id u
  = match UsageRecords.api_key_id u, sqlite_integer id with
    | Some j, Some i => j =? i
    | _, _ => false
    end.
Proof.
  unfold usage_of, is_id.
  destruct (UsageRecords.api_key_id u), (sqlite_integer id); reflexivity.
Qed.

End UsageQuery.

(** The usage query counts the records written under the id: with unique
    key ids, totalRequests is the number of usage records whose apiKeyId is
    the integer that the path segment denotes for the store (none, when it
    denotes no integer), and keyId is [parseInt] of the segment, null when
    that is NaN; when no record is counted, the answer is still a 200, with
    totalRequests 0, keyInfo null and no records.  The store is left as it
    was. *)
Theorem usage_query_counts {P : Platform} (d : db) (id : string) :
  unique_ids d ->
  code (response (get_api_keys_id_usage d id)) = 200 /\
  store (get_api_keys_id_usage d id) = d /\
  get (body (response (get_api_keys_id_usage d id))) "keyId"
  = match parseInt id with
    | Some n => JNum n
    | None => JNull
    end /\
  get (body (response (get_api_keys_id_usage d id))) "totalRequests"
  = JNum (Z.of_nat (List.length
            (filter (fun u => match UsageRecords.api_key_id u, sqlite_integer id with
                              | Some j, Some i => j =? i
                              | _, _ => false
                              end) (usage_records d)))) /\
  (filter (fun u => match UsageRecords.api_key_id u, sqlite_integer id with
                    | Some j, Some i => j =? i
                    | _, _ => false
                    end) (usage_records d) = [] ->
   body (response (get_api_keys_id_usage d id))
   = JObj [("keyId", match parseInt id with
                     | Some n => JNum n
                     | None => JNull
                     end);
           ("totalRequests", JNum 0);
           ("keyInfo", JNull); ("records", JArr [])]).
Proof.
  intros Hu.
  rewrite <- (filter_ext _ _ (usage_of_unfold id) (usage_records d)).
  split; [reflexivity|]. split; [reflexivity|]. split; [reflexivity|].
  split.
  - now rewrite total_requests, select_usage_length.
  - intros Hnone. unfold get_api_keys_id_usage, json, select_usage.
    now rewrite Hnone.
Qed.

Lemma usage_query_counts_witness :
  get (body (response (@get_api_keys_id_usage demo_platform
                         (store demo_used_deleted) "10e-1"))) "keyId"
  = JNum 10 /\
  get (body (response (@get_api_keys_id_usage demo_platform
                         (store demo_used_deleted) "10e-1"))) "totalRequests"
  = JNum 1.
Proof.
  assert (Hu : unique_ids (store demo_used_deleted)).
  { vm_compute. repeat constructor. intros []. }
  destruct (@usage_query_counts demo_platform (store demo_used_deleted) "10e-1" Hu)
    as (_ & _ & Hk & Ht & _).
  split; [exact Hk | exact Ht].
Defined.

(** Every validation shows in the usage of the key it matched, and of no
    other: after a validation call that passed the guards and whose usage
    record the store accepted, totalRequests of the matched key's id is one
    more than before, and totalRequests of every other id is what it was
    (a call that matched nothing changes no id's count). *)
Theorem validation_is_counted {P : Platform} (e : env) (d : db) (k : string)
    (scope service : jsval) (id : string) :
  unique_ids d ->
  passes_input_validation (JStr k) scope service = true ->
  usage_insert_ok e = true ->
  get (body (response (get_api_keys_id_usage
                         (store (post_validate e d (JStr k) scope service)) id)))
      "totalRequests"
  = JNum (Z.of_nat (List.length (filter (usage_of id) (usage_records d)))
          + match matched k d, sqlite_integer id with
            | Some r, Some i => if ApiKeys.id r =? i then 1 else 0
            | _, _ => 0
            end).
Proof.
  intros Hu Hp Hok. rewrite total_requests, select_usage_length.
  - f_equal. rewrite (post_validate_run e d k _ _ Hp). cbn [store].
    unfold usage_call, logUsage. rewrite Hok. cbn [fst usage_records].
    rewrite filter_app, length_app. cbn [filter].
    unfold usage_of at 2. cbn [UsageRecords.api_key_id].
    destruct (matched k d) as [r|]; cbn [option_map].
    + unfold is_id. destruct (sqlite_integer id) as [i|].
      * destruct (ApiKeys.id r =? i); cbn [List.length]; lia.
      * cbn [List.length]. lia.
    + cbn [List.length]. lia.
  - unfold unique_ids. now rewrite post_validate_keys.
Qed.

Lemma validation_is_counted_witness :
  get (body (response (@get_api_keys_id_usage demo_platform (store demo_used) "1")))
      "totalRequests"
  = JNum 1.
Proof.
  assert (Hu : unique_ids demo_db) by (vm_compute; repeat constructor; intros []).
  exact (@validation_is_counted demo_platform demo_env demo_db "c0ffee"
           (JStr "orders:read") (JStr "svc") "1" Hu eq_refl eq_refl).
Defined.

(** Two path segments that denote the same integer for the store act
    alike: revocation and soft delete through one or the other leave the
    same store and answer the same status, and the usage query answers the
    same count, key information and records; the answers differ at most in
    the id they echo, which is [parseInt] of the segment as it was spelled
    and need not be the id that was compared. *)
Theorem spellings_of_an_id_act_alike {P : Platform} (e : env) (d : db)
    (id id' : string) (status : jsval) :
  sqlite_integer id = sqlite_integer id' ->
  store (patch_api_keys_id e d id status) = store (patch_api_keys_id e d id' status) /\
  code (response (patch_api_keys_id e d id status))
  = code (response (patch_api_keys_id e d id' status)) /\
  store (delete_api_keys_id e d id) = store (delete_api_keys_id e d id') /\
  code (response (delete_api_keys_id e d id))
  = code (response (delete_api_keys_id e d id')) /\
  (forall name : string, In name ["totalRequests"; "keyInfo"; "records"] ->
     get (body (response (get_api_keys_id_usage d id))) name
     = get (body (response (get_api_keys_id_usage d id'))) name) /\
  (code (response (patch_api_keys_id e d id status)) = 200 ->
   get (body (response (patch_api_keys_id e d id status))) "id"
   = match parseInt id with Some n => JNum n | None => JNull end) /\
  (code (response (delete_api_keys_id e d id)) = 200 ->
   get (body (response (delete_api_keys_id e d id))) "id"
   = match parseInt id with Some n => JNum n | None => JNull end).
Proof.
  intros Hsame.
  assert (Hw : (fun k : ApiKeys.row => is_id id (ApiKeys.id k))
               = (fun k : ApiKeys.row => is_id id' (ApiKeys.id k))).
  { unfold is_id. now rewrite Hsame. }
  assert (Hd : deletable id = deletable id').
  { unfold deletable, is_id. now rewrite Hsame. }
  assert (Hu : usage_of id = usage_of id').
  { unfold usage_of, is_id. now rewrite Hsame. }
  split; [|split; [|split; [|split; [|split; [|split]]]]].
  - unfold patch_api_keys_id. destruct (negb (is_str status "revoked")); [reflexivity|].
    rewrite Hw. rewrite (surjective_pairing (sql_update _ _ _)).
    now destruct (snd _ =? 0).
  - unfold patch_api_keys_id. destruct (negb (is_str status "revoked")); [reflexivity|].
    rewrite Hw. rewrite (surjective_pairing (sql_update _ _ _)).
    now destruct (snd _ =? 0).
  - rewrite !delete_store. now rewrite Hd.
  - rewrite !delete_code. now rewrite Hd.
  - unfold get_api_keys_id_usage, select_usage, json. cbn [response body].
    rewrite Hu. intros name [<-|[<-|[<-|[]]]]; reflexivity.
  - unfold patch_api_keys_id. destruct (negb (is_str status "revoked")); [discriminate|].
    rewrite (surjective_pairing (sql_update _ _ _)).
    destruct (snd _ =? 0); [discriminate | reflexivity].
  - rewrite delete_unfold. cbv zeta.
    destruct (snd _ =? 0); [discriminate | reflexivity].
Qed.

Lemma spellings_of_an_id_act_alike_witness :
  store (@delete_api_keys_id demo_platform demo_env demo_db "10e-1")
  = store (@delete_api_keys_id demo_platform demo_env demo_db "1") /\
  get (body (response (@delete_api_keys_id demo_platform demo_env demo_db "10e-1"))) "id"
  = JNum 10.
Proof.
  pose proof (@spellings_of_an_id_act_alike demo_platform demo_env demo_db
                "10e-1" "1" (JStr "revoked") eq_refl)
    as (_ & _ & Hst & _ & _ & _ & Hid).
  split; [exact Hst | exact (Hid eq_refl)].
Defined.

(** ** Key creation *)

Section Creation.
Context {P : Platform}.




End Creation.







(** ** A presented key that is no string *)

(** A truthy [apiKey] that is no string (a number, [true], an array, an
    object) passes the guards; it is then answered invalid_key, with its
    usage record, when no live key is stored, and otherwise ends in the
    handler's catch: status 500, the store unchanged, no usage record, one
    line on the operational log. *)
Theorem non_string_key_ends_in_catch {P : Platform} (e : env) (d : db)
    (apiKey scope service : jsval) :
  (forall s, apiKey <> JStr s) ->
  passes_input_validation apiKey scope service = true ->
  (select_candidates d = [] ->
   response (post_validate e d apiKey scope service) = render (Denied invalid_key) /\
   usage_writes (trace (post_validate e d apiKey scope service))
   = [InsertUsage None "validate" "/validate" (req_ip e) (req_user_agent e)
        (usage_metadata service scope "invalid_key")]) /\
  (select_candidates d <> [] ->
   response (post_validate e d apiKey scope service)
   = mkResponse 500 (JObj [("error", JStr "Internal server error")]) /\
   store (post_validate e d apiKey scope service) = d /\
   trace (post_validate e d apiKey scope service)
   = [Run SelectCandidates; ConsoleError "Error validating API key:"]).
Proof.
  intros Hno Hp.
  destruct (post_validate_no_string e d apiKey scope service Hno Hp) as [H0 H1].
  split.
  - intros Hnone. destruct (H0 Hnone) as (Hr & Hw & _). now split.
  - exact H1.
Qed.

Lemma non_string_key_ends_in_catch_witness :
  code (response (@post_validate demo_platform demo_env demo_db
                    (JNum 42) (JStr "orders:read") (JStr "svc"))) = 500.
Proof.
  destruct (proj2 (@non_string_key_ends_in_catch demo_platform demo_env demo_db
                     (JNum 42) (JStr "orders:read") (JStr "svc")
                     ltac:(discriminate) eq_refl) ltac:(discriminate))
    as (Hr & _).
  now rewrite Hr.
Defined.

(** ** The key class *)

(** The methods of the class compose as follows.  An object built with the
    defaults of the constructor and no expiration is valid and grants no
    scope.  Once revoked, an object is invalid at every reading of the
    clock, also after its scopes are updated; revocation leaves the granted
    scopes alone.  After [updateScopes], a string is granted if and only if
    it is among the new scopes (by exact equality), a value that is no
    string is never granted, and validity is what it was. *)
Theorem key_object_lifecycle (clock1 clock2 clock clock' clock'' : Z)
    (id key owner scope : jsval) (k : ApiKey.t) (newScopes : list string)
    (s : string) :
  (ApiKey.isValid clock (ApiKey.new clock1 clock2 id key None None None None None owner)
   = true /\
   ApiKey.hasScope scope (ApiKey.new clock1 clock2 id key None None None None None owner)
   = false) /\
  (ApiKey.isValid clock' (ApiKey.revoke clock k) = false /\
   ApiKey.isValid clock''
     (ApiKey.updateScopes clock' newScopes (ApiKey.revoke clock k)) = false /\
   ApiKey.hasScope scope (ApiKey.revoke clock k) = ApiKey.hasScope scope k) /\
  ((ApiKey.hasScope (JStr s) (ApiKey.updateScopes clock newScopes k) = true
    <-> In s newScopes) /\
   ((forall t, scope <> JStr t) ->
    ApiKey.hasScope scope (ApiKey.updateScopes clock newScopes k) = false) /\
   ApiKey.isValid clock' (ApiKey.updateScopes clock newScopes k)
   = ApiKey.isValid clock' k).
Proof.
  split; [now split|]. split; [now repeat split|].
  split; [apply array_includes_in|]. split; [|reflexivity].
  intros Hno. unfold ApiKey.hasScope, array_includes.
  cbn [ApiKey.updateScopes ApiKey.scopes].
  induction newScopes as [|x l IH]; [reflexivity|].
  cbn [existsb]. rewrite IH, orb_false_r.
  destruct scope; try reflexivity. exfalso. now apply (Hno s0).
Qed.

Lemma key_object_lifecycle_witness :
  ApiKey.hasScope (JNum 3)
    (ApiKey.updateScopes 5 ["orders:read"]
       (ApiKey.new 1 2 (JNum 1) (JStr "k") None None None None None (JStr "o")))
  = false.
Proof.
  exact (proj1 (proj2 (proj2 (proj2
           (key_object_lifecycle 1 2 5 6 7 (JNum 1) (JStr "k") (JStr "o") (JNum 3)
              (ApiKey.new 1 2 (JNum 1) (JStr "k") None None None None None (JStr "o"))
              ["orders:read"] "x"))))
           ltac:(discriminate)).
Defined.

(** The class and the validation handler disagree on two expirations.  Take
    an object and a stored record with the same status, the object's
    expiration being the Date of the record's (null when the record's is
    falsy).  If [isValid] holds, the handler finds the record neither
    revoked nor expired; the handler finds so while [isValid] is false
    exactly when the record is active and its expiration is the present
    instant or no valid date. *)
Theorem class_is_stricter_than_handler {P : Platform} (current answered : Z)
    (scope service : jsval) (r : ApiKeys.row) (k : ApiKey.t) :
  ApiKey.status k = ApiKeys.status r ->
  ApiKey.expiration k
  = (if truthy (ApiKeys.expiration r)
     then Some (new_Date (ApiKeys.expiration r)) else None) ->
  (ApiKey.isValid current k = true ->
   verdict current answered scope service (Some r) <> Denied revoked /\
   verdict current answered scope service (Some r) <> Denied expired) /\
  ((verdict current answered scope service (Some r) <> Denied revoked /\
    verdict current answered scope service (Some r) <> Denied expired /\
    ApiKey.isValid current k = false)
   <->
   (ApiKeys.status r = "active" /\
    truthy (ApiKeys.expiration r) = true /\
    (new_Date (ApiKeys.expiration r) = None \/
     new_Date (ApiKeys.expiration r) = Some current))).
Proof.
  intros Hstatus Hexp. unfold ApiKey.isValid. rewrite Hstatus, Hexp.
  cbn [verdict].
  destruct (ApiKeys.status r =? "active")%string eqn:Hst; cbn [negb andb].
  - apply String.eqb_eq in Hst.
    destruct (truthy (ApiKeys.expiration r)) eqn:Ht; cbn [andb].
    + destruct (new_Date (ApiKeys.expiration r)) as [t|] eqn:Hd; cbn [date_lt].
      * destruct (t <? current) eqn:Hlt.
        -- assert (Hgt : (current <? t) = false).
           { apply Z.ltb_ge. apply Z.ltb_lt in Hlt. lia. }
           split; [congruence|]. split.
           ++ intros (_ & H' & _). congruence.
           ++ intros (_ & _ & [H'|[= H']]); [discriminate|].
              subst. rewrite Z.ltb_irrefl in Hlt. discriminate.
        -- split.
           ++ intros _. destruct (negb _); split; discriminate.
           ++ split.
              ** intros (_ & _ & Hv). apply Z.ltb_ge in Hv. apply Z.ltb_ge in Hlt.
                 repeat split; auto. right. f_equal. lia.
              ** intros (_ & _ & [H'|[= H']]); [discriminate|]. subst.
                 rewrite Z.ltb_irrefl.
                 destruct (negb _); repeat split; discriminate.
      * split; [discriminate|]. split.
        -- intros _. auto.
        -- intros _. destruct (negb _); repeat split; discriminate.
    + split.
      * intros _. destruct (negb _); split; discriminate.
      * split; [intros (_ & _ & H'); discriminate | intros (_ & H' & _); discriminate].
  - split; [discriminate|]. split.
    + intros (H' & _). congruence.
    + intros (H' & _). apply String.eqb_neq in Hst. contradiction.
Qed.

Lemma class_is_stricter_than_handler_witness :
  @verdict demo_platform 1735689599000 1735689599001 (JStr "orders:read") (JStr "svc")
    (Some (ApiKeys.mk 1 "h" "s" "active" (JStr "2024-12-31T23:59:59Z") "c" "u"
             ["orders:read"] (JStr "o") None))
  <> Denied expired /\
  ApiKey.isValid 1735689599000
    (ApiKey.mk (JNum 1) JUndefined "active" (Some (Some 1735689599000)) 0 0
       ["orders:read"] (JStr "o"))
  = false.
Proof.
  destruct (proj2 (proj2 (@class_is_stricter_than_handler demo_platform
                            1735689599000 1735689599001 (JStr "orders:read") (JStr "svc")
                            (ApiKeys.mk 1 "h" "s" "active" (JStr "2024-12-31T23:59:59Z")
                               "c" "u" ["orders:read"] (JStr "o") None)
                            (ApiKey.mk (JNum 1) JUndefined "active"
                               (Some (Some 1735689599000)) 0 0
                               ["orders:read"] (JStr "o"))
                            eq_refl eq_refl))
              (conj eq_refl (conj eq_refl (or_intror eq_refl))))
    as (_ & He & Hv).
  now split.
Defined.

(** ** The consumer middleware *)

Section Trim.
Import Consumer.

Lemma trim_start_spaces (pad s : string) :
  all_spaces pad = true -> trim_start (pad ++ s) = trim_start s.
Proof.
  induction pad as [|c pad IH]; [reflexivity|].
  cbn [all_spaces append trim_start]. rewrite andb_true_iff. intros [-> Hp]. auto.
Qed.

Lemma trim_end_spaces (s pad : string) :
  all_spaces pad = true -> trim_end (s ++ pad) = trim_end s.
Proof.
  intros Hp. induction s as [|c s IH].
  - cbn [append trim_end]. induction pad as [|c pad IH]; [reflexivity|].
    cbn [all_spaces] in Hp. apply andb_true_iff in Hp. destruct Hp as [Hc Hp].
    cbn [trim_end]. now rewrite (IH Hp), Hc.
  - cbn [append trim_end]. now rewrite IH.
Qed.

Lemma trim_start_keeps (k s : string) :
  all_spaces k = false -> trim_start (k ++ s) = trim_start k ++ s.
Proof.
  induction k as [|c k IH]; [discriminate|].
  cbn [all_spaces append trim_start]. destruct (is_space c); cbn [andb]; auto.
Qed.

Lemma trim_of_spaces (s : string) : all_spaces s = true -> trim s = "".
Proof.
  intros Hs. unfold trim.
  assert (Hstart : trim_start s = "").
  { induction s as [|c s IH]; [reflexivity|].
    cbn [all_spaces] in Hs. apply andb_true_iff in Hs. destruct Hs as [Hc Hs].
    cbn [trim_start]. rewrite Hc. auto. }
  now rewrite Hstart.
Qed.

(** Whitespace around a token does not change what [trim] returns. *)
Lemma trim_padded (pad k pad' : string) :
  all_spaces pad = true -> all_spaces pad' = true ->
  trim (pad ++ k ++ pad') = trim k.
Proof.
  intros Hp Hp'. unfold trim. rewrite (trim_start_spaces pad _ Hp).
  destruct (all_spaces k) eqn:Hk.
  - rewrite (trim_start_spaces k pad' Hk).
    fold (trim pad'). rewrite (trim_of_spaces pad' Hp').
    fold (trim k). now rewrite (trim_of_spaces k Hk).
  - rewrite (trim_start_keeps k pad' Hk). now apply trim_end_spaces.
Qed.

End Trim.

Section MiddlewareFacts.
Import Consumer.
Context {S : Type} (fetch : S -> jsval -> completion jsval * S).

(** The middleware on a header that carries a token. *)
Lemma middleware_with_token (requiredScope serviceName : string) (h : headers)
    (st : S) (header : string) :
  or_else (of_header (authorization h)) (of_header (Authorization h)) = JStr header ->
  String.prefix "Bearer " header = true ->
  trim (drop 7 header) <> "" ->
  validateApiKey fetch requiredScope serviceName h st =
  let posted := validate_body (trim (drop 7 header)) requiredScope serviceName in
  match fst (fetch st posted) with
  | Throw => (Answer validation_failed, snd (fetch st posted), [posted])
  | Normal result =>
      match property result "allowed" with
      | Throw => (Answer validation_failed, snd (fetch st posted), [posted])
      | Normal allowed =>
          if negb (truthy allowed) then
            (Answer (mkResponse 403 (JObj [("error", JStr "Access denied");
                                           ("reason", get result "reason")])),
             snd (fetch st posted), [posted])
          else
            match property (get result "metadata") "keyId" with
            | Throw => (Answer validation_failed, snd (fetch st posted), [posted])
            | Normal _ => (Next (get result "metadata"), snd (fetch st posted), [posted])
            end
      end
  end.
Proof.
  intros Hh Hp Hk. unfold validateApiKey. rewrite Hh, Hp.
  assert (Hheader : truthy (JStr header) = true).
  { cbn [truthy]. apply negb_true_iff, String.eqb_neq. intros ->. discriminate Hp. }
  rewrite Hheader. cbn [negb orb].
  assert (Hkey : truthy (JStr (trim (drop 7 header))) = true).
  { cbn [truthy]. now apply negb_true_iff, String.eqb_neq. }
  rewrite Hkey. cbn [negb]. cbv zeta.
  now destruct (fetch st _) as [[result|] st'].
Qed.

Lemma middleware_without_token (requiredScope serviceName : string) (h : headers)
    (st : S) :
  (forall header,
     or_else (of_header (authorization h)) (of_header (Authorization h)) = JStr header ->
     String.prefix "Bearer " header = true -> trim (drop 7 header) = "") ->
  exists message,
    validateApiKey fetch requiredScope serviceName h st
    = (Answer (unauthorized message), st, []).
Proof.
  intros Hno. unfold validateApiKey.
  destruct (or_else _ _) as [| | | |header| |] eqn:Hh; try (eexists; reflexivity).
  destruct (negb (truthy (JStr header)) || negb (String.prefix "Bearer " header)) eqn:Hg;
    [eexists; reflexivity|].
  apply orb_false_iff in Hg. destruct Hg as [_ Hp]. apply negb_false_iff in Hp.
  rewrite (Hno header eq_refl Hp). cbn [truthy String.eqb negb]. eexists; reflexivity.
Qed.

End MiddlewareFacts.

(** The middleware contacts the manager at most once per request, and never
    without a key: whatever the manager is, a request is either answered 401
    with nothing posted and the manager untouched, or exactly one body is
    posted, whose key is the non-empty trimmed rest of a header that starts
    with [Bearer ], with the scope and service the middleware was built
    with.  An answer the middleware gives itself has status 401, 403 or
    500. *)
Theorem middleware_posts_once_or_refuses {S : Type}
    (fetch : S -> jsval -> completion jsval * S)
    (requiredScope serviceName : string) (h : Consumer.headers) (st : S) :
  ((exists message,
      Consumer.validateApiKey fetch requiredScope serviceName h st
      = (Consumer.Answer (Consumer.unauthorized message), st, [])) \/
   (exists header,
      or_else (Consumer.of_header (Consumer.authorization h))
              (Consumer.of_header (Consumer.Authorization h)) = JStr header /\
      String.prefix "Bearer " header = true /\
      Consumer.trim (Consumer.drop 7 header) <> "" /\
      snd (Consumer.validateApiKey fetch requiredScope serviceName h st)
      = [Consumer.validate_body (Consumer.trim (Consumer.drop 7 header))
           requiredScope serviceName] /\
      snd (fst (Consumer.validateApiKey fetch requiredScope serviceName h st))
      = snd (fetch st (Consumer.validate_body (Consumer.trim (Consumer.drop 7 header))
                         requiredScope serviceName)))) /\
  (forall r,
     fst (fst (Consumer.validateApiKey fetch requiredScope serviceName h st))
     = Consumer.Answer r ->
     code r = 401 \/ code r = 403 \/ code r = 500).
Proof.
  assert (Hcases :
    (forall header,
       or_else (Consumer.of_header (Consumer.authorization h))
               (Consumer.of_header (Consumer.Authorization h)) = JStr header ->
       String.prefix "Bearer " header = true ->
       Consumer.trim (Consumer.drop 7 header) = "") \/
    (exists header,
       or_else (Consumer.of_header (Consumer.authorization h))
               (Consumer.of_header (Consumer.Authorization h)) = JStr header /\
       String.prefix "Bearer " header = true /\
       Consumer.trim (Consumer.drop 7 header) <> "")).
  { destruct (or_else _ _) as [| | | |header| |]; try (left; intros ? [=]; fail).
    destruct (String.prefix "Bearer " header) eqn:Hp.
    - destruct (string_dec (Consumer.trim (Consumer.drop 7 header)) "") as [He|Hne].
      + left. now intros ? [= <-] _.
      + right. eauto.
    - left. intros ? [= <-] Hp'. congruence. }
  destruct Hcases as [Hno|(header & Hh & Hp & Hk)].
  - destruct (middleware_without_token fetch requiredScope serviceName h st Hno)
      as [message Hm].
    split; [left; eauto|]. rewrite Hm. cbn [fst]. intros r [= <-]. now left.
  - pose proof (middleware_with_token fetch requiredScope serviceName h st header Hh Hp Hk)
      as Hm. cbv zeta in Hm. split.
    + right. exists header. repeat split; try assumption; rewrite Hm;
        destruct (fst (fetch st _)) as [result|]; try reflexivity;
        destruct (Consumer.property result "allowed") as [allowed|]; try reflexivity;
        destruct (negb (truthy allowed)); try reflexivity;
        now destruct (Consumer.property (get result "metadata") "keyId").
    + rewrite Hm. intros r.
      destruct (fst (fetch st _)) as [result|]; cbn [fst];
        [|intros [= <-]; auto].
      destruct (Consumer.property result "allowed") as [allowed|]; cbn [fst];
        [|intros [= <-]; auto].
      destruct (negb (truthy allowed)); cbn [fst]; [intros [= <-]; auto|].
      destruct (Consumer.property (get result "metadata") "keyId"); cbn [fst];
        [discriminate | intros [= <-]; auto].
Qed.

(** The header round trip: a header made of [Bearer ], whitespace, a
    non-empty key that has no whitespace at its ends, and whitespace again
    makes the middleware post exactly that key, once, whichever of the two
    header lookups finds it. *)
Theorem bearer_header_carries_the_key {S : Type}
    (fetch : S -> jsval -> completion jsval * S)
    (requiredScope serviceName : string) (st : S) (pad k pad' : string)
    (h : Consumer.headers) :
  Consumer.all_spaces pad = true ->
  Consumer.all_spaces pad' = true ->
  Consumer.trim k = k ->
  k <> "" ->
  Consumer.authorization h = Some ("Bearer " ++ pad ++ k ++ pad') \/
  ((Consumer.authorization h = None \/ Consumer.authorization h = Some "") /\
   Consumer.Authorization h = Some ("Bearer " ++ pad ++ k ++ pad')) ->
  snd (Consumer.validateApiKey fetch requiredScope serviceName h st)
  = [Consumer.validate_body k requiredScope serviceName].
Proof.
  intros Hp Hp' Hk Hne Hh.
  assert (Hheader :
    or_else (Consumer.of_header (Consumer.authorization h))
            (Consumer.of_header (Consumer.Authorization h))
    = JStr ("Bearer " ++ pad ++ k ++ pad')).
  { destruct Hh as [->|[[->| ->] ->]]; reflexivity. }
  assert (Htoken : Consumer.trim (Consumer.drop 7 ("Bearer " ++ pad ++ k ++ pad')) = k).
  { cbn [append Consumer.drop]. rewrite (trim_padded pad k pad' Hp Hp'). exact Hk. }
  assert (Hprefix : String.prefix "Bearer " ("Bearer " ++ pad ++ k ++ pad') = true).
  { destruct (pad ++ k ++ pad'); reflexivity. }
  rewrite (middleware_with_token fetch requiredScope serviceName h st _ Hheader Hprefix);
    rewrite Htoken; [|exact Hne].
  cbv zeta. destruct (fst (fetch st _)) as [result|]; try reflexivity.
  destruct (Consumer.property result "allowed") as [allowed|]; try reflexivity.
  destruct (negb (truthy allowed)); try reflexivity.
  now destruct (Consumer.property (get result "metadata") "keyId").
Qed.

Lemma middleware_posts_once_or_refuses_witness :
  fst (fst (Consumer.validateApiKey (@Consumer.manager demo_platform demo_env)
              "orders:write" "order-service" demo_headers demo_db))
  = Consumer.Answer
      (mkResponse 403 (JObj [("error", JStr "Access denied");
                             ("reason", JStr "Insufficient scope")])) /\
  (403 = 401 \/ 403 = 403 \/ 403 = 500).
Proof.
  split; [reflexivity|].
  exact (proj2 (middleware_posts_once_or_refuses
                  (@Consumer.manager demo_platform demo_env)
                  "orders:write" "order-service" demo_headers demo_db)
           (mkResponse 403 (JObj [("error", JStr "Access denied");
                                  ("reason", JStr "Insufficient scope")]))
           eq_refl).
Defined.

Lemma bearer_header_carries_the_key_witness :
  snd (Consumer.validateApiKey (@Consumer.manager demo_platform demo_env)
         "orders:read" "order-service" demo_headers demo_db)
  = [Consumer.validate_body "c0ffee" "orders:read" "order-service"].
Proof.
  exact (bearer_header_carries_the_key (@Consumer.manager demo_platform demo_env)
           "orders:read" "order-service" demo_db " " "c0ffee" " " demo_headers
           eq_refl eq_refl eq_refl ltac:(discriminate) (or_introl eq_refl)).
Defined.

(** ** The consumer in front of the manager *)

Section EndToEnd.
Import Consumer.
Context {P : Platform}.

Lemma header_cases (h : headers) :
  (forall header,
     or_else (of_header (authorization h)) (of_header (Authorization h)) = JStr header ->
     String.prefix "Bearer " header = true -> trim (drop 7 header) = "") \/
  (exists header,
     or_else (of_header (authorization h)) (of_header (Authorization h)) = JStr header /\
     String.prefix "Bearer " header = true /\
     trim (drop 7 header) <> "").
Proof.
  destruct (or_else _ _) as [| | | |header| |]; try (left; intros ? [=]; fail).
  destruct (String.prefix "Bearer " header) eqn:Hp.
  - destruct (string_dec (trim (drop 7 header)) "") as [He|Hne].
    + left. now intros ? [= <-] _.
    + right. eauto.
  - left. intros ? [= <-] Hp'. congruence.
Qed.

Lemma manager_answers (e : env) (d : db) (k sc sv : string) :
  manager e d (validate_body k sc sv)
  = (Normal (body (response (post_validate e d (JStr k) (JStr sc) (JStr sv)))),
     store (post_validate e d (JStr k) (JStr sc) (JStr sv))).
Proof. reflexivity. Qed.

Lemma verdict_allowed_inv (current answered : Z) (scope service : jsval)
    (m : option ApiKeys.row) (i : Z) (o : jsval) (l : list string) (v : jsval)
    (t : string) :
  verdict current answered scope service m = Allowed i o l v t ->
  exists r, m = Some r /\ i = ApiKeys.id r /\ o = ApiKeys.owner r /\
            l = ApiKeys.scopes r /\ v = service /\ t = toISOString answered /\
            ApiKeys.status r = "active" /\
            truthy (ApiKeys.expiration r)
            && date_lt (new_Date (ApiKeys.expiration r)) (Some current) = false /\
            array_includes (ApiKeys.scopes r) scope = true.
Proof.
  destruct m as [r|]; cbn [verdict]; [|discriminate].
  destruct (ApiKeys.status r =? "active")%string eqn:Hs; cbn [negb]; [|discriminate].
  destruct (_ && _) eqn:Hx; [discriminate|].
  destruct (array_includes _ _) eqn:Ha; cbn [negb]; [|discriminate].
  intros [= <- <- <- <- <-]. exists r. apply String.eqb_eq in Hs.
  repeat split; auto.
Qed.

(** What the middleware makes of a decision of the manager. *)
Lemma middleware_on_decision (e : env) (d : db) (sc sv : string) (h : headers)
    (header : string) (dc : decision) :
  or_else (of_header (authorization h)) (of_header (Authorization h)) = JStr header ->
  String.prefix "Bearer " header = true ->
  trim (drop 7 header) <> "" ->
  response (post_validate e d (JStr (trim (drop 7 header))) (JStr sc) (JStr sv))
  = render dc ->
  validateApiKey (manager e) sc sv h d
  = (match dc with
     | Denied rs =>
         Answer (mkResponse 403 (JObj [("error", JStr "Access denied");
                                       ("reason", JStr (reason_text rs))]))
     | Allowed keyId owner scopes service validatedAt =>
         Next (JObj [("keyId", JNum keyId); ("owner", owner);
                     ("scopes", JArr (map JStr scopes)); ("service", service);
                     ("validatedAt", JStr validatedAt)])
     end,
     store (post_validate e d (JStr (trim (drop 7 header))) (JStr sc) (JStr sv)),
     [validate_body (trim (drop 7 header)) sc sv]).
Proof.
  intros Hh Hp Hk Hr.
  rewrite (middleware_with_token (manager e) sc sv h d header Hh Hp Hk).
  cbv zeta. rewrite manager_answers. cbn [fst snd]. rewrite Hr.
  now destruct dc.
Qed.

(** What the middleware makes of a rejection by the manager. *)
Lemma middleware_on_error (e : env) (d : db) (sc sv : string) (h : headers)
    (header : string) :
  or_else (of_header (authorization h)) (of_header (Authorization h)) = JStr header ->
  String.prefix "Bearer " header = true ->
  trim (drop 7 header) <> "" ->
  passes_input_validation (JStr (trim (drop 7 header))) (JStr sc) (JStr sv) = false ->
  validateApiKey (manager e) sc sv h d
  = (Answer (mkResponse 403 (JObj [("error", JStr "Access denied");
                                   ("reason", JUndefined)])),
     d, [validate_body (trim (drop 7 header)) sc sv]).
Proof.
  intros Hh Hp Hk Hpass.
  destruct (post_validate_rejected e d _ _ _ Hpass) as (Hstore & _ & Herr).
  rewrite (middleware_with_token (manager e) sc sv h d header Hh Hp Hk).
  cbv zeta. rewrite manager_answers. cbn [fst snd]. rewrite Hstore.
  cbn [validate_errors In] in Herr.
  destruct Herr as [H|[H|[H|[]]]]; rewrite <- H; reflexivity.
Qed.

(** The middleware in front of the manager, on a header with a token. *)
Lemma middleware_outcome (e : env) (d : db) (sc sv : string) (h : headers)
    (header : string) :
  or_else (of_header (authorization h)) (of_header (Authorization h)) = JStr header ->
  String.prefix "Bearer " header = true ->
  trim (drop 7 header) <> "" ->
  validateApiKey (manager e) sc sv h d
  = if passes_input_validation (JStr (trim (drop 7 header))) (JStr sc) (JStr sv)
    then
      (match verdict (now e) (answered_at e) (JStr sc) (JStr sv)
               (matched (trim (drop 7 header)) d) with
       | Denied rs =>
           Answer (mkResponse 403 (JObj [("error", JStr "Access denied");
                                         ("reason", JStr (reason_text rs))]))
       | Allowed keyId owner scopes service validatedAt =>
           Next (JObj [("keyId", JNum keyId); ("owner", owner);
                       ("scopes", JArr (map JStr scopes)); ("service", service);
                       ("validatedAt", JStr validatedAt)])
       end,
       store (post_validate e d (JStr (trim (drop 7 header))) (JStr sc) (JStr sv)),
       [validate_body (trim (drop 7 header)) sc sv])
    else
      (Answer (mkResponse 403 (JObj [("error", JStr "Access denied");
                                     ("reason", JUndefined)])),
       d, [validate_body (trim (drop 7 header)) sc sv]).
Proof.
  intros Hh Hp Hk.
  destruct (passes_input_validation _ _ _) eqn:Hpass.
  - apply middleware_on_decision; try assumption.
    now rewrite (post_validate_run e d _ _ _ Hpass).
  - now apply middleware_on_error.
Qed.

(** When the middleware calls [next()]. *)
Lemma next_inv (e : env) (d : db) (sc sv : string) (h : headers) (m : jsval) :
  fst (fst (validateApiKey (manager e) sc sv h d)) = Next m ->
  exists (header : string) (r : ApiKeys.row),
    or_else (of_header (authorization h)) (of_header (Authorization h)) = JStr header /\
    String.prefix "Bearer " header = true /\
    trim (drop 7 header) <> "" /\
    passes_input_validation (JStr (trim (drop 7 header))) (JStr sc) (JStr sv) = true /\
    matched (trim (drop 7 header)) d = Some r /\
    ApiKeys.status r = "active" /\
    truthy (ApiKeys.expiration r)
    && date_lt (new_Date (ApiKeys.expiration r)) (Some (now e)) = false /\
    In sc (ApiKeys.scopes r) /\
    m = JObj [("keyId", JNum (ApiKeys.id r)); ("owner", ApiKeys.owner r);
              ("scopes", JArr (map JStr (ApiKeys.scopes r))); ("service", JStr sv);
              ("validatedAt", JStr (toISOString (answered_at e)))].
Proof.
  intros Hnext. destruct (header_cases h) as [Hno|(header & Hh & Hp & Hk)].
  - destruct (middleware_without_token (manager e) sc sv h d Hno) as [message Hm].
    rewrite Hm in Hnext. discriminate.
  - rewrite (middleware_outcome e d sc sv h header Hh Hp Hk) in Hnext.
    destruct (passes_input_validation _ _ _) eqn:Hpass; [|discriminate].
    cbn [fst] in Hnext.
    destruct (verdict _ _ _ _ _) as [rs|i o l v t] eqn:Hv; [discriminate|].
    apply verdict_allowed_inv in Hv.
    destruct Hv as (r & Hm & -> & -> & -> & -> & -> & Hst & Hx & Ha).
    exists header, r. injection Hnext as <-.
    repeat split; try assumption. now apply array_includes_in.
Qed.

Lemma map_JStr_injective (l l' : list string) : map JStr l = map JStr l' -> l = l'.
Proof.
  revert l'. induction l as [|x l IH]; intros [|y l']; cbn [map];
    try discriminate; [reflexivity|].
  intros [= -> Hl]. f_equal. now apply IH.
Qed.

Lemma render_injective (dc dc' : decision) : render dc = render dc' -> dc = dc'.
Proof.
  destruct dc as [[]|i o l v t], dc' as [[]|i' o' l' v' t']; cbn [render reason_text];
    intros H; try reflexivity; try discriminate H.
  injection H as -> -> Hl -> ->. apply map_JStr_injective in Hl. now subst.
Qed.

End EndToEnd.

Section Orders.
Import Consumer.
Context {P : Platform}.

Lemma verdict_allowed_intro (current answered : Z) (sc : string) (service : jsval)
    (r : ApiKeys.row) :
  ApiKeys.status r = "active" ->
  truthy (ApiKeys.expiration r)
  && date_lt (new_Date (ApiKeys.expiration r)) (Some current) = false ->
  In sc (ApiKeys.scopes r) ->
  verdict current answered (JStr sc) service (Some r)
  = Allowed (ApiKeys.id r) (ApiKeys.owner r) (ApiKeys.scopes r) service
      (toISOString answered).
Proof.
  intros Hst Hx Hin. cbn [verdict]. rewrite Hst, Hx.
  replace (("active" =? "active")%string) with true by reflexivity. cbn [negb].
  now rewrite (proj2 (array_includes_in _ _) Hin).
Qed.

Lemma get_orders_of (e : env) (clock : Z) (h : headers) (d : db) :
  get_orders e clock h d =
  match fst (fst (validateApiKey (manager e) "orders:read" "order-service" h d)) with
  | Answer r => (r, snd (fst (validateApiKey (manager e) "orders:read" "order-service" h d)))
  | Next apiKeyValidation =>
      (mkResponse 200
         (JObj [("message", JStr "Orders data");
                ("accessedBy", get apiKeyValidation "owner");
                ("keyId", get apiKeyValidation "keyId");
                ("timestamp", JStr (toISOString clock))]),
       snd (fst (validateApiKey (manager e) "orders:read" "order-service" h d)))
  end.
Proof.
  unfold get_orders.
  now destruct (validateApiKey _ _ _ _ _) as [[[r|m] d'] posted].
Qed.

Lemma answer_is_no_200 (e : env) (d : db) (sc sv : string) (h : headers)
    (r : http_response) :
  fst (fst (validateApiKey (manager e) sc sv h d)) = Answer r -> code r <> 200.
Proof.
  destruct (header_cases h) as [Hno|(header & Hh & Hp & Hk)].
  - destruct (middleware_without_token (manager e) sc sv h d Hno) as [message ->].
    cbn [fst]. intros [= <-]. discriminate.
  - rewrite (middleware_outcome e d sc sv h header Hh Hp Hk).
    destruct (passes_input_validation _ _ _); cbn [fst].
    + destruct (verdict _ _ _ _ _); intros [= <-]; discriminate.
    + intros [= <-]. discriminate.
Qed.

End Orders.

(** The consumer lets a request through only for a live, active, unexpired
    key that holds the required scope: whenever the middleware in front of
    the manager calls [next()], the key it posted matches a record of the
    manager that is not soft-deleted, is active, is not expired and has the
    required scope among its scopes, and the metadata attached to the
    request names that record's id and owner. *)
Theorem consumer_admits_only_granted_keys {P : Platform} (e : env) (d : db)
    (requiredScope serviceName : string) (h : Consumer.headers) (m : jsval) :
  fst (fst (Consumer.validateApiKey (Consumer.manager e) requiredScope serviceName h d))
  = Consumer.Next m ->
  exists (k : string) (r : ApiKeys.row),
    snd (Consumer.validateApiKey (Consumer.manager e) requiredScope serviceName h d)
    = [Consumer.validate_body k requiredScope serviceName] /\
    matched k d = Some r /\
    In r (api_keys d) /\
    ApiKeys.deleted_at r = None /\
    verifies k r = true /\
    ApiKeys.status r = "active" /\
    truthy (ApiKeys.expiration r)
    && date_lt (new_Date (ApiKeys.expiration r)) (Some (now e)) = false /\
    In requiredScope (ApiKeys.scopes r) /\
    get m "keyId" = JNum (ApiKeys.id r) /\
    get m "owner" = ApiKeys.owner r.
Proof.
  intros Hnext.
  destruct (next_inv e d requiredScope serviceName h m Hnext)
    as (header & r & Hh & Hp & Hk & Hpass & Hm & Hst & Hx & Hin & ->).
  destruct (matched_in _ d r Hm) as (Hrow & Hlive & Hver).
  exists (Consumer.trim (Consumer.drop 7 header)), r.
  split.
  - rewrite (middleware_outcome e d requiredScope serviceName h header Hh Hp Hk), Hpass.
    reflexivity.
  - repeat split; assumption.
Qed.

Lemma consumer_admits_only_granted_keys_witness :
  exists (k : string) (r : ApiKeys.row),
    matched (P := demo_platform) k demo_db = Some r /\ ApiKeys.status r = "active".
Proof.
  destruct (@consumer_admits_only_granted_keys demo_platform demo_env demo_db
              "orders:read" "order-service" demo_headers _ eq_refl)
    as (k & r & _ & Hm & _ & _ & _ & Hst & _).
  exists k, r. now split.
Defined.

(** The consumer answers as the manager decides.  For a header with a token
    and a middleware built with a scope that contains [':'] and a non-empty
    service: a denial of the manager becomes a 403 that carries the manager's
    reason, an allowance becomes [next()] with the manager's metadata, and in
    both cases the manager was asked once and is left in the state its
    validation handler leaves (with the usage record of the attempt). *)
Theorem consumer_mirrors_the_manager {P : Platform} (e : env) (d : db)
    (requiredScope serviceName header : string) (h : Consumer.headers) :
  or_else (Consumer.of_header (Consumer.authorization h))
          (Consumer.of_header (Consumer.Authorization h)) = JStr header ->
  String.prefix "Bearer " header = true ->
  Consumer.trim (Consumer.drop 7 header) <> "" ->
  includes requiredScope ":" = true ->
  serviceName <> "" ->
  Consumer.validateApiKey (Consumer.manager e) requiredScope serviceName h d
  = (match validate_decision_of e d (Consumer.trim (Consumer.drop 7 header))
             requiredScope serviceName with
     | Denied rs =>
         Consumer.Answer
           (mkResponse 403 (JObj [("error", JStr "Access denied");
                                  ("reason", JStr (reason_text rs))]))
     | Allowed keyId owner scopes service validatedAt =>
         Consumer.Next
           (JObj [("keyId", JNum keyId); ("owner", owner);
                  ("scopes", JArr (map JStr scopes)); ("service", service);
                  ("validatedAt", JStr validatedAt)])
     end,
     store (post_validate e d (JStr (Consumer.trim (Consumer.drop 7 header)))
              (JStr requiredScope) (JStr serviceName)),
     [Consumer.validate_body (Consumer.trim (Consumer.drop 7 header))
        requiredScope serviceName]) /\
  response (post_validate e d (JStr (Consumer.trim (Consumer.drop 7 header)))
              (JStr requiredScope) (JStr serviceName))
  = render (validate_decision_of e d (Consumer.trim (Consumer.drop 7 header))
              requiredScope serviceName).
Proof.
  intros Hh Hp Hk Hsc Hsv.
  pose proof (passes_strings _ requiredScope serviceName Hk Hsv Hsc) as Hpass.
  split.
  - now rewrite (middleware_outcome e d requiredScope serviceName h header Hh Hp Hk), Hpass.
  - now rewrite (post_validate_run e d _ _ _ Hpass).
Qed.

Lemma consumer_mirrors_the_manager_witness :
  fst (fst (Consumer.validateApiKey (@Consumer.manager demo_platform demo_env)
              "orders:write" "order-service" demo_headers demo_db))
  = Consumer.Answer
      (mkResponse 403 (JObj [("error", JStr "Access denied");
                             ("reason", JStr "Insufficient scope")])).
Proof.
  rewrite (proj1 (@consumer_mirrors_the_manager demo_platform demo_env demo_db
                    "orders:write" "order-service" "Bearer  c0ffee " demo_headers
                    eq_refl eq_refl ltac:(discriminate) eq_refl ltac:(discriminate))).
  reflexivity.
Defined.

(** A middleware built with a scope that has no [':'], or with an empty
    service, admits nobody: every request that carries a token is answered
    403 without a reason, and the manager, which rejects the call before it
    touches its store, records nothing. *)
Theorem misconfigured_consumer_admits_nobody {P : Platform} (e : env) (d : db)
    (requiredScope serviceName header : string) (h : Consumer.headers) :
  or_else (Consumer.of_header (Consumer.authorization h))
          (Consumer.of_header (Consumer.Authorization h)) = JStr header ->
  String.prefix "Bearer " header = true ->
  Consumer.trim (Consumer.drop 7 header) <> "" ->
  includes requiredScope ":" = false \/ serviceName = "" ->
  Consumer.validateApiKey (Consumer.manager e) requiredScope serviceName h d
  = (Consumer.Answer
       (mkResponse 403 (JObj [("error", JStr "Access denied");
                              ("reason", JUndefined)])),
     d,
     [Consumer.validate_body (Consumer.trim (Consumer.drop 7 header))
        requiredScope serviceName]).
Proof.
  intros Hh Hp Hk Hbad. apply middleware_on_error; try assumption.
  unfold passes_input_validation. cbn [scope_ok_validate method_includes].
  destruct Hbad as [->| ->].
  - apply andb_false_r.
  - cbn [truthy String.eqb negb]. now rewrite andb_false_r.
Qed.

Lemma misconfigured_consumer_admits_nobody_witness :
  snd (fst (Consumer.validateApiKey (@Consumer.manager demo_platform demo_env)
              "orders" "order-service" demo_headers demo_db))
  = demo_db.
Proof.
  rewrite (@misconfigured_consumer_admits_nobody demo_platform demo_env demo_db
             "orders" "order-service" "Bearer  c0ffee " demo_headers
             eq_refl eq_refl ltac:(discriminate) (or_introl eq_refl)).
  reflexivity.
Defined.

(** [GET /orders] of the consumer serves the granted keys, and only them.
    A request whose header carries, after [Bearer ], a token that matches a
    live record of the manager which is active, not expired and holds
    [orders:read] is answered 200 with the owner and id of that record, and
    leaves the manager in the state its validation handler leaves.
    Conversely a request answered 200 carries such a token.  Every other
    request gets a 401, a 403 or a 500. *)
Theorem orders_are_served_to_granted_keys {P : Platform} (e : env) (clock : Z)
    (h : Consumer.headers) (d : db) :
  (forall (header : string) (r : ApiKeys.row),
     or_else (Consumer.of_header (Consumer.authorization h))
             (Consumer.of_header (Consumer.Authorization h)) = JStr header ->
     String.prefix "Bearer " header = true ->
     Consumer.trim (Consumer.drop 7 header) <> "" ->
     matched (Consumer.trim (Consumer.drop 7 header)) d = Some r ->
     ApiKeys.status r = "active" ->
     truthy (ApiKeys.expiration r)
     && date_lt (new_Date (ApiKeys.expiration r)) (Some (now e)) = false ->
     In "orders:read" (ApiKeys.scopes r) ->
     Consumer.get_orders e clock h d
     = (mkResponse 200
          (JObj [("message", JStr "Orders data");
                 ("accessedBy", ApiKeys.owner r);
                 ("keyId", JNum (ApiKeys.id r));
                 ("timestamp", JStr (toISOString clock))]),
        store (post_validate e d (JStr (Consumer.trim (Consumer.drop 7 header)))
                 (JStr "orders:read") (JStr "order-service")))) /\
  (code (fst (Consumer.get_orders e clock h d)) = 200 ->
   exists (header : string) (r : ApiKeys.row),
     or_else (Consumer.of_header (Consumer.authorization h))
             (Consumer.of_header (Consumer.Authorization h)) = JStr header /\
     String.prefix "Bearer " header = true /\
     Consumer.trim (Consumer.drop 7 header) <> "" /\
     matched (Consumer.trim (Consumer.drop 7 header)) d = Some r /\
     ApiKeys.status r = "active" /\
     truthy (ApiKeys.expiration r)
     && date_lt (new_Date (ApiKeys.expiration r)) (Some (now e)) = false /\
     In "orders:read" (ApiKeys.scopes r)) /\
  (code (fst (Consumer.get_orders e clock h d)) <> 200 ->
   code (fst (Consumer.get_orders e clock h d)) = 401 \/
   code (fst (Consumer.get_orders e clock h d)) = 403 \/
   code (fst (Consumer.get_orders e clock h d)) = 500).
Proof.
  split.
  { intros header r Hh Hp Hk Hm Hst Hx Hin.
    rewrite get_orders_of.
    rewrite (middleware_outcome e d _ _ h header Hh Hp Hk).
    rewrite (passes_strings _ "orders:read" "order-service" Hk
               ltac:(discriminate) eq_refl).
    rewrite Hm, (verdict_allowed_intro _ _ _ _ r Hst Hx Hin).
    reflexivity. }
  rewrite get_orders_of.
  destruct (fst (fst (Consumer.validateApiKey (Consumer.manager e)
                        "orders:read" "order-service" h d))) as [r|m] eqn:Hout;
    cbn [fst].
  - pose proof (answer_is_no_200 e d _ _ h r Hout) as Hne. split.
    + intros H. contradiction.
    + intros _. destruct (header_cases h) as [Hno|(header & Hh & Hp & Hk)].
      * destruct (middleware_without_token (Consumer.manager e) "orders:read"
                    "order-service" h d Hno) as [message Hm].
        rewrite Hm in Hout. cbn [fst] in Hout. injection Hout as <-. now left.
      * rewrite (middleware_outcome e d _ _ h header Hh Hp Hk) in Hout.
        destruct (passes_input_validation _ _ _); cbn [fst] in Hout.
        -- destruct (verdict _ _ _ _ _); [|discriminate].
           injection Hout as <-. right. now left.
        -- injection Hout as <-. right. now left.
  - destruct (next_inv e d _ _ h m Hout)
      as (header & row & Hh & Hp & Hk & Hpass & Hm & Hst & Hx & Hin & ->).
    split; [|intros H; now contradiction H].
    intros _. exists header, row. repeat split; assumption.
Qed.

Lemma orders_are_served_to_granted_keys_witness :
  fst (@Consumer.get_orders demo_platform demo_env 1750000000009 demo_headers demo_db)
  = mkResponse 200
      (JObj [("message", JStr "Orders data");
             ("accessedBy", JStr "test-user");
             ("keyId", JNum 1);
             ("timestamp", JStr "2025-06-15T15:06:40.000Z")]) /\
  code (fst (@Consumer.get_orders demo_platform demo_env 1750000000009
               (Consumer.mkHeaders (Some "Basic c0ffee") None) demo_db)) = 401.
Proof.
  split.
  - rewrite (proj1 (@orders_are_served_to_granted_keys demo_platform demo_env
                      1750000000009 demo_headers demo_db)
               "Bearer  c0ffee "
               (ApiKeys.mk 1 "5a17$c0ffee" "5a17" "active" JNull
                  "2025-01-01T00:00:00.000Z" "2025-01-01T00:00:00.000Z"
                  ["orders:read"] (JStr "test-user") None)
               eq_refl eq_refl ltac:(discriminate) eq_refl eq_refl eq_refl
               (or_introl eq_refl)).
    reflexivity.
  - destruct (proj2 (proj2 (@orders_are_served_to_granted_keys demo_platform demo_env
                       1750000000009 (Consumer.mkHeaders (Some "Basic c0ffee") None)
                       demo_db)) ltac:(discriminate)) as [H|[H|H]];
      [exact H | discriminate H | discriminate H].
Defined.
